(** * gcode_post_processor.py: extraction, region transform and rewrite

    A shallow embedding of [src/gcode_post_processor.py] and the proofs of
    the properties stated about it.

    Conventions of the embedding.
    - A Python [str] is a list of characters ([list ascii], code points below
      256).
    - The files live in a map from paths to the characters they hold. Both
      files are opened in text mode with the default [newline]: on reading,
      CR LF and a CR alone are handed out as LF ([Py.universal_newlines]),
      and the lines are cut after each LF ([Py.readlines]); on writing, LF
      is written as the line separator of the platform, which is LF here.
      The characters of a file are those its bytes decode to: a file whose
      bytes do not decode has no text and is not among the files
      considered.
    - A numpy [float64] is a primitive binary64 [float]; [*] is
      [PrimFloat.mul] and [<=] is [PrimFloat.leb] (false on NaN).
    - A raised exception is the [Raise] case of [result].
    - The array [gcode_data] lives in a store of arrays and is passed by
      reference. *)

From Stdlib Require Import ZArith List String Ascii Floats Bool Lia.
From stdpp Require Import base option list gmap strings.
Import ListNotations.

Set Default Proof Using "Type".

(** ** Exceptions *)

Inductive exn : Set :=
| ValueError
| IndexError
| NameError
| FileNotFoundError.

Inductive result (A : Type) : Type :=
| Ok (a : A)
| Raise (e : exn).
Arguments Ok {A} a.
Arguments Raise {A} e.

Definition bind {A B : Type} (c : result A) (k : A -> result B) : result B :=
  match c with
  | Ok a => k a
  | Raise e => Raise e
  end.

Notation "'let*' x ':=' c 'in' k" := (bind c (fun x => k))
  (at level 10, x pattern, c at level 100, k at level 200).

(** ** Python strings *)

Module Py.

Definition str := list ascii.

Definition lit (s : string) : str := list_ascii_of_string s.

Definition LF : ascii := ascii_of_nat 10.
Definition CR : ascii := ascii_of_nat 13.

(** [c.isspace()] for a code point below 256. *)
Definition isspace (c : ascii) : bool :=
  let n := nat_of_ascii c in
  ((9 <=? n) && (n <=? 13)) || ((28 <=? n) && (n <=? 32))
  || (n =? 133) || (n =? 160).

(** [s.startswith(p)] *)
Fixpoint startswith (s p : str) {struct p} : bool :=
  match p, s with
  | [], _ => true
  | _ :: _, [] => false
  | a :: p', b :: s' => Ascii.eqb a b && startswith s' p'
  end.

(** [sub in s] *)
Fixpoint contains (s sub : str) : bool :=
  startswith s sub ||
  match s with
  | [] => false
  | _ :: s' => contains s' sub
  end.

(** [s.lstrip()], [s.rstrip()], [s.strip()] *)
Fixpoint lstrip (s : str) : str :=
  match s with
  | [] => []
  | c :: s' => if isspace c then lstrip s' else s
  end.

Definition rstrip (s : str) : str := rev (lstrip (rev s)).

Definition strip (s : str) : str := rstrip (lstrip s).

(** [s.split()]: the maximal runs of characters that are not whitespace.
    [word] is the run being read, last character first. *)
Fixpoint split_from (word : str) (s : str) : list str :=
  match s with
  | [] => match word with [] => [] | _ :: _ => [rev word] end
  | c :: s' =>
      if isspace c then
        match word with
        | [] => split_from [] s'
        | _ :: _ => rev word :: split_from [] s'
        end
      else split_from (c :: word) s'
  end.

Definition split (s : str) : list str := split_from [] s.

(** [sep.join(l)] *)
Fixpoint join (sep : str) (l : list str) : str :=
  match l with
  | [] => []
  | [w] => w
  | w :: ws => w ++ sep ++ join sep ws
  end.

(** The lines of a text whose line ends are LF: each line keeps its LF,
    the last one may lack it. *)
Fixpoint lines_of (s : str) : list str :=
  match s with
  | [] => []
  | c :: s' =>
      if Ascii.eqb c LF then [c] :: lines_of s'
      else match lines_of s' with
           | [] => [[c]]
           | l :: ls => (c :: l) :: ls
           end
  end.

(** The text that a file object opened with [open(path, 'r')] hands out for
    the characters [s] of the file. [newline] is left at [None], so the
    universal newlines mode is on: CR LF and a CR alone both end a line and
    are read as one LF. *)
Fixpoint universal_newlines (s : str) : str :=
  match s with
  | [] => []
  | c :: s' =>
      if Ascii.eqb c CR then
        LF :: match s' with
              | [] => []
              | d :: s'' =>
                  if Ascii.eqb d LF then universal_newlines s''
                  else universal_newlines s'
              end
      else c :: universal_newlines s'
  end.

(** The lines that [for line in file] yields for a file opened for reading
    whose characters are [s]. *)
Definition readlines (s : str) : list str := lines_of (universal_newlines s).

Definition isdigit (c : ascii) : bool :=
  let n := nat_of_ascii c in (48 <=? n) && (n <=? 57).

End Py.
Import Py.

(** A line of text followed by its line feed. *)
Definition ln (s : string) : str := lit s ++ [LF].

(** ** binary64 values, their parsing and their formatting *)

Module Float64.

(** The binary64 nearest to [p / q], ties to even, with the sign [neg]. *)
Definition of_ratio (neg : bool) (p q : positive) : float :=
  SF2Prim
    (let '(mz, ez, lz) := SFdiv_core_binary prec emax (Zpos p) 0 (Zpos q) 0 in
     binary_round_aux prec emax neg mz ez lz).

(** The binary64 nearest to [m * 10 ^ k]. *)
Definition of_decimal (neg : bool) (m k : Z) : float :=
  match m with
  | Zpos p =>
      if (0 <=? k)%Z then of_ratio neg (p * Z.to_pos (10 ^ k)) 1
      else of_ratio neg p (Z.to_pos (10 ^ (- k)))
  | _ => if neg then neg_zero else zero
  end.

Definition digit_value (c : ascii) : Z := Z.of_nat (nat_of_ascii c) - 48.

Definition digits_value (ds : str) : Z :=
  fold_left (fun acc c => (10 * acc + digit_value c)%Z) ds 0%Z.

Fixpoint span_digits (s : str) : str * str :=
  match s with
  | c :: s' =>
      if isdigit c then let '(ds, r) := span_digits s' in (c :: ds, r)
      else ([], s)
  | [] => ([], [])
  end.

Definition lower (c : ascii) : ascii :=
  let n := nat_of_ascii c in
  if (65 <=? n) && (n <=? 90) then ascii_of_nat (n + 32) else c.

Definition is_underscore (c : ascii) : bool := Ascii.eqb c "_".

(** Underscores are accepted only between two digits, and are then
    ignored. [prev] tells whether the previous character was a digit. *)
Fixpoint underscores_ok (prev : bool) (s : str) : bool :=
  match s with
  | [] => true
  | c :: s' =>
      if is_underscore c then
        prev && match s' with d :: _ => isdigit d | [] => false end
        && underscores_ok false s'
      else underscores_ok (isdigit c) s'
  end.

Definition take_sign (s : str) : bool * str :=
  match s with
  | c :: s' =>
      if Ascii.eqb c "-" then (true, s')
      else if Ascii.eqb c "+" then (false, s')
      else (false, s)
  | [] => (false, [])
  end.

(** [digits [. digits] [(e|E) [+|-] digits]] with a digit in the mantissa. *)
Definition parse_number (neg : bool) (s : str) : option float :=
  let '(ip, r1) := span_digits s in
  let '(fp, r2) :=
    match r1 with
    | c :: r => if Ascii.eqb c "." then span_digits r else ([], r1)
    | [] => ([], r1)
    end in
  match ip ++ fp with
  | [] => None
  | _ :: _ =>
      let m := digits_value (ip ++ fp) in
      let k := (- Z.of_nat (length fp))%Z in
      match r2 with
      | [] => Some (of_decimal neg m k)
      | c :: r3 =>
          if Ascii.eqb (lower c) "e" then
            let '(eneg, r4) := take_sign r3 in
            let '(ed, r5) := span_digits r4 in
            match ed, r5 with
            | _ :: _, [] =>
                let x := digits_value ed in
                Some (of_decimal neg m (k + (if eneg then - x else x)))
            | _, _ => None
            end
          else None
      end
  end.

(** The whitespace that [float] ignores around a number: the six ASCII
    whitespace characters, and the two other space characters below 256,
    which [float] first replaces by a space. The separators U+001C to
    U+001F, which [str.strip] removes, are not among them. *)
Definition float_space (c : ascii) : bool :=
  let n := nat_of_ascii c in
  ((9 <=? n) && (n <=? 13)) || (n =? 32) || (n =? 133) || (n =? 160).

Fixpoint skip_space (s : str) : str :=
  match s with
  | [] => []
  | c :: s' => if float_space c then skip_space s' else s
  end.

Definition trim (s : str) : str := rev (skip_space (rev (skip_space s))).

(** Python's [float(s)] on a [str]: surrounding whitespace is ignored, then
    a sign, then [inf], [infinity] or [nan] in any case, or a decimal
    number, correctly rounded. [None] stands for [ValueError]. *)
Definition py_float (s : str) : option float :=
  let t := trim s in
  if underscores_ok false t then
    let digits := List.filter (fun c => negb (is_underscore c)) t in
    let '(neg, body) := take_sign digits in
    let low := map lower body in
    if decide (low = lit "inf" \/ low = lit "infinity") then
      Some (if neg then neg_infinity else infinity)
    else if decide (low = lit "nan") then Some nan
    else parse_number neg body
  else None.

(** *** [format(v, '.5f')] *)

Definition digit_char (d : Z) : ascii := ascii_of_nat (48 + Z.to_nat d).

(** The decimal digits of [n >= 0], most significant first; [fuel] bounds
    their number. *)
Fixpoint decimal_from (fuel : nat) (n : Z) (acc : str) : str :=
  let acc' := digit_char (n mod 10) :: acc in
  match fuel with
  | O => acc'
  | S fuel' => if (n <? 10)%Z then acc' else decimal_from fuel' (n / 10) acc'
  end.

Definition decimal (n : Z) : str := decimal_from (Z.to_nat (Z.log2 n)) n [].

Definition five_digits (r : Z) : str :=
  [ digit_char (r / 10000 mod 10); digit_char (r / 1000 mod 10);
    digit_char (r / 100 mod 10); digit_char (r / 10 mod 10);
    digit_char (r mod 10) ].

(** The integer nearest to [num / den], ties to even. *)
Definition round_half_even (num den : Z) : Z :=
  let q := (num / den)%Z in
  match (2 * (num mod den) ?= den)%Z with
  | Lt => q
  | Gt => (q + 1)%Z
  | Eq => if Z.even q then q else (q + 1)%Z
  end.

(** The integer nearest to [m * 2 ^ e * 10 ^ 5]. *)
Definition scaled_5 (m : positive) (e : Z) : Z :=
  if (0 <=? e)%Z then (Zpos m * 2 ^ e * 100000)%Z
  else round_half_even (Zpos m * 100000) (2 ^ (- e)).

Definition fixed_5 (neg : bool) (n : Z) : str :=
  (if neg then lit "-" else []) ++ decimal (n / 100000) ++ lit "."
  ++ five_digits (n mod 100000).

Definition format_5f (v : float) : str :=
  match Prim2SF v with
  | S754_nan => lit "nan"
  | S754_infinity s => if s then lit "-inf" else lit "inf"
  | S754_zero s => fixed_5 s 0
  | S754_finite s m e => fixed_5 s (scaled_5 m e)
  end.

Definition is_finite (v : float) : bool :=
  match Prim2SF v with
  | S754_zero _ | S754_finite _ _ _ => true
  | _ => false
  end.

End Float64.
Import Float64.

(** ** The array of records *)

(** One row [[x, y, e]] of the array: columns 0, 1 and 2. *)
Record row : Set := Row { col_x : float; col_y : float; col_e : float }.

(** [np.array(l)] of a list of rows has shape [(N, 3)], except that
    [np.array([])] has shape [(0,)]. *)
Inductive ndarray : Set :=
| Flat0
| Rows (rows : list row).

Definition np_array (l : list row) : ndarray :=
  match l with
  | [] => Flat0
  | _ :: _ => Rows l
  end.

(** [len(a)] *)
Definition len (a : ndarray) : nat :=
  match a with
  | Flat0 => 0
  | Rows rows => length rows
  end.

(** [a[i, 2]] *)
Definition item_e (a : ndarray) (i : nat) : result float :=
  match a with
  | Flat0 => Raise IndexError
  | Rows rows =>
      match rows !! i with
      | Some r => Ok (col_e r)
      | None => Raise IndexError
      end
  end.

Definition rows_of (a : ndarray) : list row :=
  match a with
  | Flat0 => []
  | Rows rows => rows
  end.

Definition loc := nat.

Definition range : Set := (float * float)%type.

(** ** write_gcode *)

Definition G1 : str := lit "G1".

(** One turn of [for part in parts], on the state
    [(new_line, gcode_index)]. *)
Definition emit_part (gcode_data : ndarray) (st : list str * nat) (part : str)
  : result (list str * nat) :=
  let '(new_line, gcode_index) := st in
  if startswith part (lit "E") then
    if gcode_index <? len gcode_data then
      let* v := item_e gcode_data gcode_index in
      Ok (new_line ++ [lit "E" ++ format_5f v], gcode_index + 1)
    else Ok (new_line ++ [part], gcode_index)
  else Ok (new_line ++ [part], gcode_index).

Fixpoint emit_parts (gcode_data : ndarray) (st : list str * nat)
  (parts : list str) : result (list str * nat) :=
  match parts with
  | [] => Ok st
  | part :: parts' =>
      let* st' := emit_part gcode_data st part in
      emit_parts gcode_data st' parts'
  end.

(** [output_file.write(chunk)] on the file at [path]; an LF of [chunk] is
    written as LF. *)
Definition fs_write (path : string) (chunk : str) (fs : gmap string str)
  : gmap string str :=
  alter (fun text => text ++ chunk) path fs.

(** One turn of [for line in original_file]. An exception leaves the
    output file as written so far. *)
Definition emit_line (file_path : string) (gcode_data : ndarray)
  (fs : gmap string str) (gcode_index : nat) (line : str)
  : gmap string str * result nat :=
  if contains line G1 then
    let parts := split (strip line) in
    match emit_parts gcode_data ([], gcode_index) parts with
    | Ok (new_line, gcode_index') =>
        (fs_write file_path (join (lit " ") new_line ++ [LF]) fs,
         Ok gcode_index')
    | Raise e => (fs, Raise e)
    end
  else (fs_write file_path line fs, Ok gcode_index).

Fixpoint emit_lines (file_path : string) (gcode_data : ndarray)
  (fs : gmap string str) (gcode_index : nat) (lines : list str)
  : gmap string str * result nat :=
  match lines with
  | [] => (fs, Ok gcode_index)
  | line :: lines' =>
      match emit_line file_path gcode_data fs gcode_index line with
      | (fs', Ok gcode_index') =>
          emit_lines file_path gcode_data fs' gcode_index' lines'
      | (fs', Raise e) => (fs', Raise e)
      end
  end.

(** [write_gcode(file_path, gcode_data, original_file_path)]. The original
    is opened first; opening the output for writing creates or empties it;
    the lines are read after that, so from an emptied file when the two
    paths are the same. The result carries the final value of
    [gcode_index]. *)
Definition write_gcode (fs : gmap string str) (file_path : string)
  (gcode_data : ndarray) (original_file_path : string)
  : gmap string str * result nat :=
  match fs !! original_file_path with
  | None => (fs, Raise FileNotFoundError)
  | Some _ =>
      let fs' := <[file_path := []]> fs in
      emit_lines file_path gcode_data fs' 0
        (readlines (default ([] : str) (fs' !! original_file_path)))
  end.

(** ** adjust_extrusion *)

Definition geb (a b : float) : bool := PrimFloat.leb b a.

(** One entry of [mask]. *)
Definition in_area (x_min x_max y_min y_max : float) (r : row) : bool :=
  geb (col_x r) x_min && PrimFloat.leb (col_x r) x_max
  && geb (col_y r) y_min && PrimFloat.leb (col_y r) y_max.

(** [gcode[mask, 2] *= target_ratio] *)
Definition imul_e (target_ratio : float) (r : row) (m : bool) : row :=
  if m then Row (col_x r) (col_y r) (PrimFloat.mul (col_e r) target_ratio)
  else r.

(** [adjust_extrusion(gcode, x_range, y_range, target_ratio)] on the array
    that [gcode] refers to in [heap]. Indexing [gcode[:, 0]] raises
    [IndexError] on an array of shape [(0,)], before anything is changed. *)
Definition adjust_extrusion (heap : gmap loc ndarray) (gcode : loc)
  (x_range y_range : range) (target_ratio : float)
  : result (gmap loc ndarray * loc) :=
  let '(x_min, x_max) := x_range in
  let '(y_min, y_max) := y_range in
  match heap !! gcode with
  | None => Raise NameError
  | Some Flat0 => Raise IndexError
  | Some (Rows rows) =>
      let mask := map (in_area x_min x_max y_min y_max) rows in
      Ok (<[gcode := Rows (zip_with (imul_e target_ratio) rows mask)]> heap,
          gcode)
  end.

(** ** The module globals and the two callbacks *)

Record session : Type := Session {
  heap : gmap loc ndarray;
  gcode_data : loc;
  selected_areas : list (range * range);
  extrusion_multipliers : list float;
  x_range : option range;
  y_range : option range;
  confirm_active : bool
}.

(** [min(a, b)] and [max(a, b)] of two floats. *)
Definition py_min (a b : float) : float := if PrimFloat.ltb b a then b else a.
Definition py_max (a b : float) : float := if PrimFloat.ltb a b then b else a.

(** [on_select(eclick, erelease)], with the data coordinates of the two
    events. *)
Definition on_select (s : session) (x1 y1 x2 y2 : float) : session :=
  {| heap := heap s;
     gcode_data := gcode_data s;
     selected_areas := selected_areas s;
     extrusion_multipliers := extrusion_multipliers s;
     x_range := Some (py_min x1 x2, py_max x1 x2);
     y_range := Some (py_min y1 y2, py_max y1 y2);
     confirm_active := true |}.

(** The two states of the selection session, read off the confirm button:
    a region is pending exactly while a click on the button would be
    processed. The button starts inactive, a selection activates it and a
    confirmation deactivates it. *)
Inductive session_state : Set := Idle | RegionPending.

Definition state_of (s : session) : session_state :=
  if confirm_active s then RegionPending else Idle.

Inductive event : Set :=
| Select (x1 y1 x2 y2 : float)
| Click (typed : str).

(** ** The functions that call [float] *)

Section Script.

(** Python's [float] applied to a [str]; [None] when it raises
    [ValueError]. The statements below hold whatever this function is;
    [Float64.py_float] is the instance used at concrete inputs. *)
Variable float_of_str : str -> option float.

(** [float(s)] as a call that may raise. *)
Definition float_ (s : str) : result float :=
  match float_of_str s with
  | Some v => Ok v
  | None => Raise ValueError
  end.

(** *** parse_gcode *)

Definition fields : Set := (option float * option float * option float)%type.

(** One turn of [for part in parts], on [(x, y, e)]. *)
Definition scan_part (f : fields) (part : str) : result fields :=
  let '(x, y, e) := f in
  if startswith part (lit "X") then
    let* v := float_ (drop 1 part) in Ok (Some v, y, e)
  else if startswith part (lit "Y") then
    let* v := float_ (drop 1 part) in Ok (x, Some v, e)
  else if startswith part (lit "E") then
    let* v := float_ (drop 1 part) in Ok (x, y, Some v)
  else Ok f.

Fixpoint scan_parts (f : fields) (parts : list str) : result fields :=
  match parts with
  | [] => Ok f
  | part :: parts' =>
      let* f' := scan_part f part in
      scan_parts f' parts'
  end.

(** One turn of [for line in file], on the list [gcode_data]. *)
Definition scan_line (gcode_data : list row) (line : str)
  : result (list row) :=
  if contains line G1 then
    let parts := split (strip line) in
    let* f := scan_parts (None, None, None) parts in
    match f with
    | (Some x, Some y, Some e) => Ok (gcode_data ++ [Row x y e])
    | _ => Ok gcode_data
    end
  else Ok gcode_data.

(** What one line adds to the list when its scan goes through. *)
Definition line_record (line : str) : list row :=
  if contains line G1 then
    match scan_parts (None, None, None) (split (strip line)) with
    | Ok (Some x, Some y, Some e) => [Row x y e]
    | _ => []
    end
  else [].

Fixpoint scan_lines (gcode_data : list row) (lines : list str)
  : result (list row) :=
  match lines with
  | [] => Ok gcode_data
  | line :: lines' =>
      let* gcode_data' := scan_line gcode_data line in
      scan_lines gcode_data' lines'
  end.

(** [parse_gcode(file_path)], on a file whose bytes decode to the
    characters held in [fs]. *)
Definition parse_gcode (fs : gmap string str) (file_path : string)
  : result ndarray :=
  match fs !! file_path with
  | None => Raise FileNotFoundError
  | Some text =>
      let* gcode_data := scan_lines [] (readlines text) in
      Ok (np_array gcode_data)
  end.

(** *** confirm_selection *)

(** [confirm_selection(event)], where [typed] is the text entered at the
    prompt. The button is disabled first. [ValueError] from [float] and any
    other exception raised inside the [try] are caught; what was appended
    before the exception stays appended. *)
Definition confirm_selection (s : session) (typed : str) : session :=
  let s0 :=
    {| heap := heap s; gcode_data := gcode_data s;
       selected_areas := selected_areas s;
       extrusion_multipliers := extrusion_multipliers s;
       x_range := x_range s; y_range := y_range s;
       confirm_active := false |} in
  match float_ typed with
  | Raise _ => s0
  | Ok target_ratio =>
      match x_range s, y_range s with
      | Some xr, Some yr =>
          let areas := selected_areas s ++ [(xr, yr)] in
          let multipliers := extrusion_multipliers s ++ [target_ratio] in
          match adjust_extrusion (heap s) (gcode_data s) xr yr target_ratio with
          | Ok (heap', gcode') =>
              {| heap := heap'; gcode_data := gcode';
                 selected_areas := areas;
                 extrusion_multipliers := multipliers;
                 x_range := x_range s; y_range := y_range s;
                 confirm_active := false |}
          | Raise _ =>
              {| heap := heap s; gcode_data := gcode_data s;
                 selected_areas := areas;
                 extrusion_multipliers := multipliers;
                 x_range := x_range s; y_range := y_range s;
                 confirm_active := false |}
          end
      | _, _ => s0
      end
  end.

(** An inactive button ignores clicks. *)
Definition handle (s : session) (ev : event) : session :=
  match ev with
  | Select x1 y1 x2 y2 => on_select s x1 y1 x2 y2
  | Click typed => if confirm_active s then confirm_selection s typed else s
  end.

(** *** The main script *)

Definition input_file : string := "input.gcode".
Definition output_file : string := "output.gcode".

Definition start (a : ndarray) : session :=
  {| heap := {[ 0 := a ]}; gcode_data := 0;
     selected_areas := []; extrusion_multipliers := [];
     x_range := None; y_range := None;
     confirm_active := false |}.

(** The script, run on the files [fs] with the events the window delivers
    until it is closed. It returns the files it leaves behind. Before the
    window is shown the script plots [downsampled_data[:, 0]], which raises
    [IndexError] on the array of shape [(0,)] that a file without records
    gives. *)
Definition main (fs : gmap string str) (events : list event)
  : gmap string str * result nat :=
  match parse_gcode fs input_file with
  | Raise e => (fs, Raise e)
  | Ok Flat0 => (fs, Raise IndexError)
  | Ok (Rows rows) =>
      let s := fold_left handle events (start (Rows rows)) in
      match heap s !! gcode_data s with
      | Some a' => write_gcode fs output_file a' input_file
      | None => (fs, Raise NameError)
      end
  end.

End Script.

(** ** Vocabulary of the statements *)

(** The functions [written_part] to [written_lines] say what the rewriter
    writes, token by token and line by line, as a function of the number of
    [E] tokens met before; the loops of [write_gcode] are proved to compute
    them. *)

(** The tokens of a line, as both loops compute them. *)
Definition parts_of (line : str) : list str := split (strip line).

Definition tagged (line : str) : bool := contains line G1.

Definition is_E (part : str) : bool := startswith part (lit "E").

Definition count_E (parts : list str) : nat := length (List.filter is_E parts).

(** The number of [E] tokens on the tagged lines of [lines]. *)
Fixpoint E_seen (lines : list str) : nat :=
  match lines with
  | [] => 0
  | line :: lines' =>
      (if tagged line then count_E (parts_of line) else 0) + E_seen lines'
  end.

(** What is written for [part] when [m] [E] tokens came before it. *)
Definition written_part (rows : list row) (m : nat) (part : str) : str :=
  if is_E part then
    match rows !! m with
    | Some r => lit "E" ++ format_5f (col_e r)
    | None => part
    end
  else part.

Fixpoint written_parts (rows : list row) (m : nat) (parts : list str)
  : list str :=
  match parts with
  | [] => []
  | part :: parts' =>
      written_part rows m part
      :: written_parts rows (if is_E part then S m else m) parts'
  end.

(** What is written for [line] when [m] [E] tokens came before it. *)
Definition written_line (rows : list row) (m : nat) (line : str) : str :=
  if tagged line then
    join (lit " ") (written_parts rows m (parts_of line)) ++ [LF]
  else line.

Fixpoint written_lines (rows : list row) (m : nat) (lines : list str)
  : list str :=
  match lines with
  | [] => []
  | line :: lines' =>
      written_line rows m line
      :: written_lines rows
           (if tagged line then m + count_E (parts_of line) else m) lines'
  end.

(** A tagged line with every token kept. *)
Definition kept_line (line : str) : str :=
  if tagged line then join (lit " ") (parts_of line) ++ [LF] else line.

(** A token: not empty, no whitespace in it. *)
Definition token (w : str) : Prop :=
  w <> [] /\ Forall (fun c => isspace c = false) w.

(** A line as a file object yields it: ended by its only LF, or, for the
    last line of a file, without any LF and not empty. *)
Definition ended_line (l : str) : Prop :=
  exists body, l = body ++ [LF] /\ Forall (fun c => c <> LF) body.

Definition open_line (l : str) : Prop :=
  l <> [] /\ Forall (fun c => c <> LF) l.

Inductive file_lines : list str -> Prop :=
| file_lines_nil : file_lines []
| file_lines_open l : open_line l -> file_lines [l]
| file_lines_cons l ls : ended_line l -> file_lines ls -> file_lines (l :: ls).


(** Some token of [parts] starts with [marker] and has a number as its
    remainder. *)
Definition has_field (float_of_str : str -> option float) (marker : string)
  (parts : list str) : Prop :=
  exists part v, part ∈ parts /\ startswith part (lit marker) = true
    /\ float_of_str (drop 1 part) = Some v.

(** The last token of [parts] that starts with [marker] has the number [v]
    as its remainder. *)
Definition last_field (float_of_str : str -> option float) (marker : string)
  (parts : list str) (v : float) : Prop :=
  exists before part after,
    parts = before ++ part :: after
    /\ startswith part (lit marker) = true
    /\ existsb (fun q => startswith q (lit marker)) after = false
    /\ float_of_str (drop 1 part) = Some v.

(** A token that starts with one of the three markers. *)
Definition marked (part : str) : bool :=
  startswith part (lit "X") || startswith part (lit "Y")
  || startswith part (lit "E").

(** Some token of [parts] starts with [marker]. *)
Definition has_marker (marker : string) (parts : list str) : bool :=
  existsb (fun part => startswith part (lit marker)) parts.

(** The two scans agree on [lines]: a tagged line with an [E] token has
    only one, and has an [X] and a [Y] token too, so that it is a line the
    extractor keeps. *)
Definition aligned (lines : list str) : Prop :=
  forall line, line ∈ lines -> tagged line = true ->
    count_E (parts_of line) = 0
    \/ (count_E (parts_of line) = 1
        /\ has_marker "X" (parts_of line) = true
        /\ has_marker "Y" (parts_of line) = true).

(** ** The plotted sample and the operation log *)

(** [rows[::10]]: every tenth row, from the first; [skip] rows are passed
    over before the next one that is kept. *)
Fixpoint every_tenth (skip : nat) (rows : list row) : list row :=
  match rows with
  | [] => []
  | r :: rows' =>
      match skip with
      | O => r :: every_tenth 9 rows'
      | S skip' => every_tenth skip' rows'
      end
  end.

(** [downsampled_data = gcode_data[::10]] *)
Definition downsample (a : ndarray) : ndarray :=
  match a with
  | Flat0 => Flat0
  | Rows rows => Rows (every_tenth 0 rows)
  end.

(** [a[:, j]], the column read by [j]. *)
Definition column (a : ndarray) (j : row -> float) : result (list float) :=
  match a with
  | Flat0 => Raise IndexError
  | Rows rows => Ok (map j rows)
  end.

(** The three columns handed to [ax.scatter]: x, y and the colour. *)
Definition scatter_data (a : ndarray)
  : result (list float * list float * list float) :=
  let downsampled_data := downsample a in
  let* xs := column downsampled_data col_x in
  let* ys := column downsampled_data col_y in
  let* cs := column downsampled_data col_e in
  Ok (xs, ys, cs).

(** One logged operation applied to the rows, as [adjust_extrusion] does. *)
Definition apply_op (rows : list row) (op : range * range * float)
  : list row :=
  let '((x_min, x_max), (y_min, y_max), ratio) := op in
  zip_with (imul_e ratio) rows (map (in_area x_min x_max y_min y_max) rows).

(** The operations of the two lists, paired as [zip] pairs them, applied in
    order to [rows]. *)
Definition replay (rows : list row) (areas : list (range * range))
  (multipliers : list float) : list row :=
  fold_left apply_op (zip areas multipliers) rows.

(** A coordinate that is a number. *)
Definition is_number (x : float) : bool := PrimFloat.eqb x x.

(** Whether a confirmation would multiply the row [r]: the entry of [mask]
    for the pending ranges. *)
Definition selected (s : session) (r : row) : bool :=
  match x_range s, y_range s with
  | Some (x_min, x_max), Some (y_min, y_max) =>
      in_area x_min x_max y_min y_max r
  | _, _ => false
  end.

(** * Proofs *)

(** ** Characters and tokens *)

Lemma ascii_eqb_false (a b : ascii) : Ascii.eqb a b = false -> a <> b.
Proof. intros H ->. rewrite Ascii.eqb_refl in H. discriminate. Qed.

Lemma ascii_eqb_true (a b : ascii) : Ascii.eqb a b = true -> a = b.
Proof. apply Ascii.eqb_eq. Qed.

Lemma not_space_not_LF c : isspace c = false -> c <> LF.
Proof. intros H ->. discriminate H. Qed.

Lemma isdigit_not_space c : isdigit c = true -> isspace c = false.
Proof.
  destruct c as [[] [] [] [] [] [] [] []]; vm_compute; congruence.
Qed.


Lemma rev_cons_not_nil (a : ascii) w : rev (a :: w) <> [].
Proof. simpl. intros E. apply app_eq_nil in E as [_ E]. discriminate. Qed.

Lemma split_from_tokens word s :
  Forall (fun c => isspace c = false) word ->
  Forall token (split_from word s).
Proof.
  revert word. induction s as [|c s IH]; intros word Hw; simpl.
  - destruct word as [|a w]; [constructor|].
    constructor; [|constructor].
    split; [apply rev_cons_not_nil | now apply List.Forall_rev].
  - destruct (isspace c) eqn:Hc.
    + destruct word as [|a w]; [now apply IH|].
      constructor; [|now apply IH].
      split; [apply rev_cons_not_nil | now apply List.Forall_rev].
    + apply IH. now constructor.
Qed.

Lemma split_tokens s : Forall token (split s).
Proof. apply split_from_tokens. constructor. Qed.

Lemma parts_of_tokens line : Forall token (parts_of line).
Proof. apply split_tokens. Qed.

(** ** The text written for a value *)

Lemma digit_char_isdigit d : (0 <= d < 10)%Z -> isdigit (digit_char d) = true.
Proof.
  intros Hd. unfold digit_char.
  remember (Z.to_nat d) as k eqn:Hk.
  assert (Hlt : k < 10) by lia. clear Hk Hd.
  do 10 (destruct k as [|k]; [reflexivity|]). lia.
Qed.

Lemma digit_char_mod n : isdigit (digit_char (n mod 10)) = true.
Proof. apply digit_char_isdigit. apply Z.mod_pos_bound. lia. Qed.

Lemma decimal_from_digits fuel n acc :
  Forall (fun c => isdigit c = true) acc ->
  Forall (fun c => isdigit c = true) (decimal_from fuel n acc).
Proof.
  revert n acc. induction fuel as [|fuel IH]; intros n acc Hacc; simpl.
  - constructor; [apply digit_char_mod | assumption].
  - destruct (n <? 10)%Z.
    + constructor; [apply digit_char_mod | assumption].
    + apply IH. constructor; [apply digit_char_mod | assumption].
Qed.

Lemma decimal_digits n : Forall (fun c => isdigit c = true) (decimal n).
Proof. apply decimal_from_digits. constructor. Qed.

Lemma decimal_from_not_nil fuel n acc : decimal_from fuel n acc <> [].
Proof.
  revert n acc. induction fuel as [|fuel IH]; intros n acc; simpl.
  - discriminate.
  - destruct (n <? 10)%Z; [discriminate | apply IH].
Qed.

Lemma five_digits_digits r : Forall (fun c => isdigit c = true) (five_digits r).
Proof. unfold five_digits. repeat constructor; apply digit_char_mod. Qed.


Lemma fixed_5_no_space neg n :
  Forall (fun c => isspace c = false) (fixed_5 neg n).
Proof.
  unfold fixed_5. repeat (apply Forall_app; split).
  - destruct neg; repeat constructor.
  - eapply Forall_impl; [apply decimal_digits|].
    intros c Hc. now apply isdigit_not_space.
  - repeat constructor.
  - eapply Forall_impl; [apply five_digits_digits|].
    intros c Hc. now apply isdigit_not_space.
Qed.


Lemma format_5f_not_finite v :
  is_finite v = false ->
  format_5f v = lit "nan" \/ format_5f v = lit "inf"
  \/ format_5f v = lit "-inf".
Proof.
  unfold is_finite, format_5f.
  destruct (Prim2SF v) as [| [] | |]; try discriminate; auto.
Qed.

Lemma format_5f_no_space v : Forall (fun c => isspace c = false) (format_5f v).
Proof.
  unfold format_5f.
  destruct (Prim2SF v) as [s | [] | | s m e];
    try apply fixed_5_no_space; repeat constructor.
Qed.

Lemma written_part_token rows m part :
  token part -> token (written_part rows m part).
Proof.
  intros Hp. unfold written_part.
  destruct (is_E part); [|assumption].
  destruct (rows !! m) as [r|]; [|assumption].
  split; [discriminate|].
  constructor; [reflexivity | apply format_5f_no_space].
Qed.

Lemma written_parts_tokens rows m parts :
  Forall token parts -> Forall token (written_parts rows m parts).
Proof.
  intros H. revert m. induction H as [|part parts Hp _ IH]; intros m; simpl.
  - constructor.
  - constructor; [now apply written_part_token | apply IH].
Qed.

Lemma written_parts_length rows m parts :
  length (written_parts rows m parts) = length parts.
Proof.
  revert m. induction parts as [|part parts IH]; intros m; simpl;
    [reflexivity | now rewrite IH].
Qed.

(** ** Lines *)

Lemma join_tokens_no_LF parts :
  Forall token parts -> Forall (fun c => c <> LF) (join (lit " ") parts).
Proof.
  induction 1 as [|w ws [_ Hw] Hws IH]; [constructor|].
  assert (Hw' : Forall (fun c => c <> LF) w).
  { eapply Forall_impl; [exact Hw|]. intros c. apply not_space_not_LF. }
  destruct ws as [|w' ws']; [exact Hw'|].
  change (join (lit " ") (w :: w' :: ws'))
    with (w ++ lit " " ++ join (lit " ") (w' :: ws')).
  apply Forall_app. split; [exact Hw'|].
  apply Forall_app. split; [|exact IH].
  repeat constructor. discriminate.
Qed.

Lemma join_tokens_no_CR parts :
  Forall token parts -> Forall (fun c => c <> CR) (join (lit " ") parts).
Proof.
  induction 1 as [|w ws [_ Hw] Hws IH]; [constructor|].
  assert (Hw' : Forall (fun c => c <> CR) w).
  { eapply Forall_impl; [exact Hw|]. intros c Hc ->. discriminate Hc. }
  destruct ws as [|w' ws']; [exact Hw'|].
  change (join (lit " ") (w :: w' :: ws'))
    with (w ++ lit " " ++ join (lit " ") (w' :: ws')).
  apply Forall_app. split; [exact Hw'|].
  apply Forall_app. split; [|exact IH].
  repeat constructor. discriminate.
Qed.

Lemma lines_of_ended body rest :
  Forall (fun c => c <> LF) body ->
  lines_of ((body ++ [LF]) ++ rest) = (body ++ [LF]) :: lines_of rest.
Proof.
  induction 1 as [|c body Hc _ IH]; simpl.
  - reflexivity.
  - rewrite IH.
    destruct (Ascii.eqb c LF) eqn:E; [|reflexivity].
    apply ascii_eqb_true in E. contradiction.
Qed.

Lemma lines_of_open l : open_line l -> lines_of l = [l].
Proof.
  intros [Hne H]. induction H as [|c l Hc Hl IH]; [contradiction|].
  simpl. destruct (Ascii.eqb c LF) eqn:E.
  { apply ascii_eqb_true in E. contradiction. }
  destruct l as [|c' l']; [reflexivity|].
  rewrite IH; [reflexivity | discriminate].
Qed.

Lemma lines_of_concat ls : file_lines ls -> lines_of (concat ls) = ls.
Proof.
  induction 1 as [|l Hl|l ls [body [-> Hb]] _ IH]; simpl.
  - reflexivity.
  - rewrite app_nil_r. now apply lines_of_open.
  - rewrite lines_of_ended by assumption. now rewrite IH.
Qed.

Lemma lines_of_file_lines s : file_lines (lines_of s).
Proof.
  induction s as [|c s IH]; simpl; [constructor|].
  destruct (Ascii.eqb c LF) eqn:E.
  - apply ascii_eqb_true in E. subst c.
    apply file_lines_cons; [|exact IH].
    exists []. split; [reflexivity | constructor].
  - apply ascii_eqb_false in E.
    inversion IH as [Hnil | l [Hne Hl] Hl1 | l ls [body [-> Hb]] Hls Hl2].
    + apply file_lines_open. split; [discriminate | now repeat constructor].
    + apply file_lines_open. split; [discriminate | now constructor].
    + apply file_lines_cons; [|exact Hls].
      exists (c :: body). split; [reflexivity | now constructor].
Qed.

Lemma concat_lines_of s : concat (lines_of s) = s.
Proof.
  induction s as [|c s IH]; simpl; [reflexivity|].
  destruct (Ascii.eqb c LF); simpl; [now rewrite IH|].
  destruct (lines_of s) as [|l ls]; simpl in *; now rewrite <- IH.
Qed.

(** The lines read, put end to end, are the characters of the file with
    every CR LF and every other CR read as LF. *)
Lemma concat_readlines text : concat (readlines text) = universal_newlines text.
Proof. apply concat_lines_of. Qed.

Lemma universal_newlines_cons c s :
  universal_newlines (c :: s)
  = if Ascii.eqb c CR then
      LF :: match s with
            | [] => []
            | d :: s' =>
                if Ascii.eqb d LF then universal_newlines s'
                else universal_newlines s
            end
    else c :: universal_newlines s.
Proof. reflexivity. Qed.

(** No CR is left in what is read. *)
Lemma universal_newlines_no_CR s :
  Forall (fun c => c <> CR) (universal_newlines s).
Proof.
  assert (H : forall n s, length s <= n ->
                Forall (fun c => c <> CR) (universal_newlines s)).
  { clear s. induction n as [|n IH]; intros [|c s] Hlen;
      try (constructor; fail); [cbn [length] in Hlen; lia|].
    cbn [length] in Hlen. rewrite universal_newlines_cons.
    destruct (Ascii.eqb c CR) eqn:Ec.
    - constructor; [discriminate|].
      destruct s as [|d s']; [constructor|].
      cbn [length] in Hlen.
      destruct (Ascii.eqb d LF); apply IH; cbn [length]; lia.
    - constructor; [now apply ascii_eqb_false | apply IH; lia]. }
  now apply (H (length s)).
Qed.

Lemma readlines_no_CR text line :
  line ∈ readlines text -> Forall (fun c => c <> CR) line.
Proof.
  intros Hin. pose proof (universal_newlines_no_CR text) as H.
  rewrite <- concat_readlines, Forall_concat in H.
  rewrite Forall_forall in H. now apply H.
Qed.

(** A text without CR is read as it is. *)
Lemma universal_newlines_id s :
  Forall (fun c => c <> CR) s -> universal_newlines s = s.
Proof.
  induction 1 as [|c s Hc _ IH]; [reflexivity|].
  cbn [universal_newlines]. destruct (Ascii.eqb c CR) eqn:E.
  - apply ascii_eqb_true in E. contradiction.
  - now rewrite IH.
Qed.

Lemma written_line_shape rows m line :
  ended_line line \/ open_line line ->
  ended_line (written_line rows m line) \/
  (open_line line /\ written_line rows m line = line).
Proof.
  intros H. unfold written_line. destruct (tagged line).
  - left. eexists. split; [reflexivity|].
    apply join_tokens_no_LF, written_parts_tokens, parts_of_tokens.
  - destruct H as [H|H]; [now left | now right].
Qed.

Lemma written_lines_file_lines rows m lines :
  file_lines lines -> file_lines (written_lines rows m lines).
Proof.
  intros H. revert m.
  induction H as [|l Hl|l ls Hl _ IH]; intros m; simpl.
  - constructor.
  - destruct (written_line_shape rows m l) as [He|[Ho ->]]; [now right| |].
    + apply file_lines_cons; [exact He | constructor].
    + now apply file_lines_open.
  - destruct (written_line_shape rows m l) as [He|[_ ->]]; [now left| |].
    + apply file_lines_cons; [exact He | apply IH].
    + apply file_lines_cons; [exact Hl | apply IH].
Qed.

Lemma written_lines_length rows m lines :
  length (written_lines rows m lines) = length lines.
Proof.
  revert m. induction lines as [|l ls IH]; intros m; simpl;
    [reflexivity | now rewrite IH].
Qed.

(** ** The rewriter against its specification *)

Lemma count_E_cons part parts :
  count_E (part :: parts) = (if is_E part then 1 else 0) + count_E parts.
Proof. unfold count_E. simpl. now destruct (is_E part). Qed.

Lemma item_e_rows a i r : rows_of a !! i = Some r -> item_e a i = Ok (col_e r).
Proof.
  destruct a as [|rows]; simpl; [discriminate|]. now intros ->.
Qed.

Lemma len_rows_of a : len a = length (rows_of a).
Proof. now destruct a. Qed.

(** One token. The cursor [i] of the code is the number [v] of [E] tokens
    met so far, cut at the length of the array. *)
Lemma emit_part_spec a acc i v part :
  i = Nat.min v (len a) ->
  emit_part a (acc, i) part
  = Ok (acc ++ [written_part (rows_of a) v part],
        Nat.min (if is_E part then S v else v) (len a)).
Proof.
  intros Hi. unfold emit_part, written_part. fold (is_E part).
  destruct (is_E part); [|now subst].
  destruct (i <? len a) eqn:Hlt.
  - apply Nat.ltb_lt in Hlt.
    assert (Hv : v < length (rows_of a)) by (rewrite <- len_rows_of; lia).
    destruct (lookup_lt_is_Some_2 _ _ Hv) as [r Hr].
    assert (Hiv : i = v) by lia. rewrite Hiv in *.
    rewrite (item_e_rows _ _ _ Hr), Hr. unfold bind.
    do 2 f_equal. lia.
  - apply Nat.ltb_ge in Hlt.
    assert (Hv : length (rows_of a) <= v) by (rewrite <- len_rows_of; lia).
    rewrite (lookup_ge_None_2 _ _ Hv). do 2 f_equal. lia.
Qed.

Lemma emit_parts_spec a parts : forall acc i v,
  i = Nat.min v (len a) ->
  emit_parts a (acc, i) parts
  = Ok (acc ++ written_parts (rows_of a) v parts,
        Nat.min (v + count_E parts) (len a)).
Proof.
  induction parts as [|part parts IH]; intros acc i v Hi.
  - simpl. rewrite app_nil_r, Nat.add_0_r. now subst.
  - cbn [emit_parts written_parts]. rewrite (emit_part_spec _ _ _ v _ Hi).
    unfold bind. rewrite (IH _ _ (if is_E part then S v else v)) by reflexivity.
    rewrite <- app_assoc, count_E_cons. simpl.
    do 3 f_equal. destruct (is_E part); lia.
Qed.

Lemma fs_write_nil path (fs : gmap string str) : fs_write path [] fs = fs.
Proof. apply alter_id. intros x _. apply app_nil_r. Qed.

Lemma fs_write_write path c1 c2 (fs : gmap string str) :
  fs_write path c2 (fs_write path c1 fs) = fs_write path (c1 ++ c2) fs.
Proof.
  unfold fs_write. rewrite alter_alter_eq.
  apply alter_ext. intros x _. simpl. now rewrite app_assoc.
Qed.

Lemma fs_write_created path text chunk (fs : gmap string str) :
  fs_write path chunk (<[path := text]> fs) = <[path := text ++ chunk]> fs.
Proof. unfold fs_write. now rewrite alter_insert_eq. Qed.

Lemma emit_line_spec path a (fs : gmap string str) i v line :
  i = Nat.min v (len a) ->
  emit_line path a fs i line
  = (fs_write path (written_line (rows_of a) v line) fs,
     Ok (Nat.min (v + (if tagged line then count_E (parts_of line) else 0))
           (len a))).
Proof.
  intros Hi. unfold emit_line, written_line. fold (tagged line).
  destruct (tagged line).
  - fold (parts_of line). rewrite (emit_parts_spec _ _ _ _ v Hi). reflexivity.
  - rewrite Nat.add_0_r. now subst.
Qed.

Lemma emit_lines_spec path a lines : forall (fs : gmap string str) i v,
  i = Nat.min v (len a) ->
  emit_lines path a fs i lines
  = (fs_write path (concat (written_lines (rows_of a) v lines)) fs,
     Ok (Nat.min (v + E_seen lines) (len a))).
Proof.
  induction lines as [|line lines IH]; intros fs i v Hi; simpl.
  - rewrite fs_write_nil, Nat.add_0_r. now subst.
  - rewrite (emit_line_spec _ _ _ _ v _ Hi).
    rewrite (IH _ _ (v + (if tagged line then count_E (parts_of line) else 0)))
      by reflexivity.
    rewrite fs_write_write. do 3 f_equal.
    + destruct (tagged line); [reflexivity | now rewrite Nat.add_0_r].
    + lia.
Qed.

(** [write_gcode] never raises once the original exists: it leaves the
    output file holding the lines of [written_lines], one for each line read. *)
Lemma write_gcode_spec (fs : gmap string str) path a orig text :
  path <> orig ->
  fs !! orig = Some text ->
  write_gcode fs path a orig
  = (<[path := concat (written_lines (rows_of a) 0 (readlines text))]> fs,
     Ok (Nat.min (E_seen (readlines text)) (len a))).
Proof.
  intros Hne Horig. unfold write_gcode. rewrite Horig.
  rewrite lookup_insert_ne, Horig by assumption. cbn [default].
  rewrite (emit_lines_spec _ _ _ _ 0 0) by lia.
  now rewrite fs_write_created.
Qed.

(** Written over its own original, the file is left empty. *)
Lemma write_gcode_same_path (fs : gmap string str) path a text :
  fs !! path = Some text ->
  write_gcode fs path a path = (<[path := []]> fs, Ok 0).
Proof.
  intros Horig. unfold write_gcode. rewrite Horig.
  now rewrite lookup_insert_eq.
Qed.

Lemma readlines_file_lines text : file_lines (readlines text).
Proof. apply lines_of_file_lines. Qed.

Lemma lines_of_written rows text :
  lines_of (concat (written_lines rows 0 (readlines text)))
  = written_lines rows 0 (readlines text).
Proof.
  apply lines_of_concat, written_lines_file_lines, readlines_file_lines.
Qed.

Lemma written_lines_no_CR rows lines : forall m,
  Forall (Forall (fun c => c <> CR)) lines ->
  Forall (Forall (fun c => c <> CR)) (written_lines rows m lines).
Proof.
  induction lines as [|line lines IH]; intros m H; [constructor|].
  apply Forall_cons in H as [Hline Hrest].
  cbn [written_lines]. constructor; [|now apply IH].
  unfold written_line. destruct (tagged line); [|exact Hline].
  apply Forall_app. split; [|repeat constructor; discriminate].
  apply join_tokens_no_CR, written_parts_tokens, parts_of_tokens.
Qed.

(** What is written has LF line ends only, so it is read back as it was
    written, line for line. *)
Lemma readlines_written rows text :
  readlines (concat (written_lines rows 0 (readlines text)))
  = written_lines rows 0 (readlines text).
Proof.
  unfold readlines at 1. rewrite universal_newlines_id.
  - apply lines_of_written.
  - apply Forall_concat, written_lines_no_CR, Forall_forall.
    intros line. apply readlines_no_CR.
Qed.

(** Line [n] of the output, from line [n] of the input. *)
Lemma written_lines_lookup rows lines : forall m n line,
  lines !! n = Some line ->
  written_lines rows m lines !! n
  = Some (written_line rows (m + E_seen (take n lines)) line).
Proof.
  induction lines as [|l ls IH]; intros m n line Hn; [discriminate|].
  destruct n as [|n]; simpl in *.
  - injection Hn as ->. now rewrite Nat.add_0_r.
  - rewrite (IH _ _ _ Hn). do 2 f_equal.
    destruct (tagged l); lia.
Qed.

(** Token [p] of a rewritten line, from token [p] of the line. *)
Lemma written_parts_lookup rows parts : forall m p part,
  parts !! p = Some part ->
  written_parts rows m parts !! p
  = Some (written_part rows (m + count_E (take p parts)) part).
Proof.
  induction parts as [|q parts IH]; intros m p part Hp; [discriminate|].
  destruct p as [|p]; simpl in *.
  - injection Hp as ->. unfold count_E. simpl. now rewrite Nat.add_0_r.
  - rewrite (IH _ _ _ Hp). rewrite count_E_cons. do 2 f_equal.
    destruct (is_E q); lia.
Qed.

Lemma written_parts_exhausted rows m parts :
  length rows <= m -> written_parts rows m parts = parts.
Proof.
  revert m. induction parts as [|part parts IH]; intros m Hm; simpl;
    [reflexivity|].
  unfold written_part. rewrite (lookup_ge_None_2 _ _ Hm).
  rewrite IH by (destruct (is_E part); lia).
  now destruct (is_E part).
Qed.

Lemma written_lines_exhausted rows m lines :
  length rows <= m -> written_lines rows m lines = map kept_line lines.
Proof.
  revert m. induction lines as [|line lines IH]; intros m Hm; simpl;
    [reflexivity|].
  rewrite IH by (destruct (tagged line); lia).
  f_equal. unfold written_line, kept_line.
  destruct (tagged line); [|reflexivity].
  now rewrite written_parts_exhausted.
Qed.

Lemma E_seen_app l1 l2 : E_seen (l1 ++ l2) = E_seen l1 + E_seen l2.
Proof. induction l1 as [|l l1 IH]; simpl; [reflexivity | rewrite IH; lia]. Qed.

Lemma written_lines_app rows m l1 l2 :
  written_lines rows m (l1 ++ l2)
  = written_lines rows m l1 ++ written_lines rows (m + E_seen l1) l2.
Proof.
  revert m. induction l1 as [|l l1 IH]; intros m; simpl.
  - now rewrite Nat.add_0_r.
  - rewrite IH. do 3 f_equal. destruct (tagged l); lia.
Qed.

(** ** Splitting what was joined *)

Lemma split_from_spaces word ws :
  Forall (fun c => isspace c = true) ws ->
  split_from word ws = match word with [] => [] | _ :: _ => [rev word] end.
Proof.
  intros H. revert word.
  induction H as [|c ws Hc _ IH]; intros word; simpl; [reflexivity|].
  rewrite Hc, (IH []). now destruct word.
Qed.

Lemma split_from_app_spaces s : forall word ws,
  Forall (fun c => isspace c = true) ws ->
  split_from word (s ++ ws) = split_from word s.
Proof.
  induction s as [|c s IH]; intros word ws Hws; simpl.
  - now apply split_from_spaces.
  - destruct (isspace c); [|now apply IH].
    destruct word; now rewrite IH.
Qed.

Lemma lstrip_spaces s :
  exists ws, Forall (fun c => isspace c = true) ws /\ s = ws ++ lstrip s.
Proof.
  induction s as [|c s [ws [Hws IH]]]; simpl.
  - exists []. now split.
  - destruct (isspace c) eqn:Hc.
    + exists (c :: ws). split; [now constructor | simpl; now f_equal].
    + exists []. now split.
Qed.

Lemma split_lstrip s : split (lstrip s) = split s.
Proof.
  unfold split. induction s as [|c s IH]; simpl; [reflexivity|].
  destruct (isspace c) eqn:Hc; [exact IH|].
  simpl. now rewrite Hc.
Qed.

Lemma split_rstrip s : split (rstrip s) = split s.
Proof.
  unfold rstrip.
  destruct (lstrip_spaces (rev s)) as [ws [Hws E]].
  apply (f_equal (@rev ascii)) in E.
  rewrite rev_involutive, rev_app_distr in E.
  rewrite E at 2. unfold split.
  symmetry. apply split_from_app_spaces. now apply List.Forall_rev.
Qed.

(** Stripping a line before splitting it does not change its tokens. *)
Lemma split_strip s : split (strip s) = split s.
Proof. unfold strip. now rewrite split_rstrip, split_lstrip. Qed.

Lemma split_from_token w : forall word c rest,
  Forall (fun c => isspace c = false) w ->
  isspace c = true ->
  rev word ++ w <> [] ->
  split_from word (w ++ c :: rest) = (rev word ++ w) :: split_from [] rest.
Proof.
  induction w as [|a w IH]; intros word c rest Hw Hc Hne; simpl.
  - rewrite Hc. rewrite app_nil_r in *.
    destruct word; [contradiction | reflexivity].
  - inversion Hw as [|? ? Ha Hw']; subst. rewrite Ha.
    rewrite (IH (a :: word) c rest Hw' Hc).
    + simpl. now rewrite <- app_assoc.
    + simpl. rewrite <- app_assoc. simpl.
      intros E. apply app_eq_nil in E as [_ E]. discriminate.
Qed.

Lemma split_join parts :
  Forall token parts -> split (join (lit " ") parts ++ [LF]) = parts.
Proof.
  induction 1 as [|w ws [Hne Hw] Hws IH]; [reflexivity|].
  unfold split in *.
  destruct ws as [|w' ws'].
  - simpl join. rewrite (split_from_token w [] LF []); try easy.
  - change (join (lit " ") (w :: w' :: ws'))
      with (w ++ lit " " ++ join (lit " ") (w' :: ws')).
    rewrite <- !app_assoc.
    change (lit " " ++ join (lit " ") (w' :: ws') ++ [LF])
      with (" "%char :: (join (lit " ") (w' :: ws') ++ [LF])).
    rewrite (split_from_token w [] " "%char); try easy.
    simpl rev. simpl app at 1. now rewrite IH.
Qed.

(** The tokens of a rewritten tagged line are the rewritten tokens of the
    line. *)
Lemma parts_of_written_line rows m line :
  tagged line = true ->
  parts_of (written_line rows m line) = written_parts rows m (parts_of line).
Proof.
  intros Ht. unfold written_line. rewrite Ht.
  unfold parts_of at 1. rewrite split_strip.
  apply split_join, written_parts_tokens, parts_of_tokens.
Qed.

Lemma parts_of_kept_line line :
  tagged line = true -> parts_of (kept_line line) = parts_of line.
Proof.
  intros Ht. unfold kept_line. rewrite Ht.
  unfold parts_of at 1. rewrite split_strip.
  apply split_join, parts_of_tokens.
Qed.

(** ** Comparisons of binary64 values *)

Lemma SFcompare_swap a b :
  SFcompare b a = option_map CompOpp (SFcompare a b).
Proof.
  destruct a as [sa|sa| |sa ma ea], b as [sb|sb| |sb mb eb]; simpl;
    try reflexivity;
    try (destruct sa; reflexivity);
    try (destruct sb; reflexivity);
    try (destruct sa, sb; reflexivity).
  destruct sa, sb; simpl; try reflexivity;
    rewrite (Z.compare_antisym ea eb);
    destruct (ea ?= eb)%Z; simpl; try reflexivity;
    now rewrite (Pos.compare_cont_antisym ma mb Eq).
Qed.

Lemma eqb_leb (x y : float) :
  PrimFloat.eqb x y = true ->
  PrimFloat.leb x y = true /\ PrimFloat.leb y x = true.
Proof.
  rewrite FloatAxioms.eqb_spec, !FloatAxioms.leb_spec. unfold SFeqb, SFleb.
  rewrite (SFcompare_swap (Prim2SF x) (Prim2SF y)).
  destruct (SFcompare (Prim2SF x) (Prim2SF y)) as [[]|]; simpl;
    try discriminate. now split.
Qed.

Lemma ltb_not_leb (x y : float) :
  PrimFloat.ltb x y = true -> PrimFloat.leb y x = false.
Proof.
  rewrite FloatAxioms.ltb_spec, FloatAxioms.leb_spec. unfold SFltb, SFleb.
  rewrite (SFcompare_swap (Prim2SF x) (Prim2SF y)).
  now destruct (SFcompare (Prim2SF x) (Prim2SF y)) as [[]|].
Qed.

(** ** The region transform *)

Lemma zip_with_mask_lookup ratio x_min x_max y_min y_max rows : forall n r,
  rows !! n = Some r ->
  zip_with (imul_e ratio) rows (map (in_area x_min x_max y_min y_max) rows) !! n
  = Some (imul_e ratio r (in_area x_min x_max y_min y_max r)).
Proof.
  induction rows as [|r0 rows IH]; intros n r Hn; [discriminate|].
  destruct n as [|n]; simpl in *; [now injection Hn as -> | now apply IH].
Qed.

Lemma zip_with_mask_length ratio x_min x_max y_min y_max rows :
  length (zip_with (imul_e ratio) rows
            (map (in_area x_min x_max y_min y_max) rows)) = length rows.
Proof.
  induction rows as [|r rows IH]; simpl; [reflexivity | now rewrite IH].
Qed.

Lemma adjust_extrusion_rows (heap : gmap loc ndarray) gcode rows
  x_min x_max y_min y_max ratio :
  heap !! gcode = Some (Rows rows) ->
  adjust_extrusion heap gcode (x_min, x_max) (y_min, y_max) ratio
  = Ok (<[gcode :=
           Rows (zip_with (imul_e ratio) rows
                   (map (in_area x_min x_max y_min y_max) rows))]> heap,
        gcode).
Proof. intros H. unfold adjust_extrusion. now rewrite H. Qed.

(** On the array of shape [(0,)] that [np.array([])] builds, the transform
    raises instead of returning. *)
Lemma adjust_extrusion_flat (heap : gmap loc ndarray) gcode xr yr ratio :
  heap !! gcode = Some Flat0 ->
  adjust_extrusion heap gcode xr yr ratio = Raise IndexError.
Proof. intros H. unfold adjust_extrusion. destruct xr, yr. now rewrite H. Qed.

Lemma imul_e_xy ratio r m :
  col_x (imul_e ratio r m) = col_x r /\ col_y (imul_e ratio r m) = col_y r.
Proof. now destruct m. Qed.

Lemma in_area_imul_e x_min x_max y_min y_max ratio r m :
  in_area x_min x_max y_min y_max (imul_e ratio r m)
  = in_area x_min x_max y_min y_max r.
Proof. now destruct m. Qed.

(** C4. The region transform multiplies the deposition by the ratio for
    exactly the records with [x_min <= x <= x_max] and
    [y_min <= y <= y_max]: a record on one of the four bounds (and within
    the others) is multiplied, a record strictly beyond a bound is left as
    it was. *)
Theorem region_transform_inclusive (heap : gmap loc ndarray) gcode rows
  x_min x_max y_min y_max ratio :
  heap !! gcode = Some (Rows rows) ->
  exists rows',
    adjust_extrusion heap gcode (x_min, x_max) (y_min, y_max) ratio
    = Ok (<[gcode := Rows rows']> heap, gcode)
    /\ length rows' = length rows
    /\ forall n r, rows !! n = Some r ->
       let x := col_x r in
       let y := col_y r in
       let inside :=
         PrimFloat.leb x_min x && PrimFloat.leb x x_max
         && PrimFloat.leb y_min y && PrimFloat.leb y y_max in
       rows' !! n
       = Some (if inside then Row x y (PrimFloat.mul (col_e r) ratio) else r)
       /\ (PrimFloat.eqb x x_min = true -> PrimFloat.leb x x_max = true ->
           PrimFloat.leb y_min y = true -> PrimFloat.leb y y_max = true ->
           inside = true)
       /\ (PrimFloat.eqb x x_max = true -> PrimFloat.leb x_min x = true ->
           PrimFloat.leb y_min y = true -> PrimFloat.leb y y_max = true ->
           inside = true)
       /\ (PrimFloat.eqb y y_min = true -> PrimFloat.leb x_min x = true ->
           PrimFloat.leb x x_max = true -> PrimFloat.leb y y_max = true ->
           inside = true)
       /\ (PrimFloat.eqb y y_max = true -> PrimFloat.leb x_min x = true ->
           PrimFloat.leb x x_max = true -> PrimFloat.leb y_min y = true ->
           inside = true)
       /\ (PrimFloat.ltb x x_min = true \/ PrimFloat.ltb x_max x = true
           \/ PrimFloat.ltb y y_min = true \/ PrimFloat.ltb y_max y = true ->
           inside = false).
Proof.
  intros Hg. eexists.
  split; [exact (adjust_extrusion_rows _ _ _ _ _ _ _ _ Hg)|].
  split; [apply zip_with_mask_length|].
  intros n r Hn x y inside.
  split; [|repeat split].
  - rewrite (zip_with_mask_lookup _ _ _ _ _ _ _ _ Hn). reflexivity.
  - intros E H1 H2 H3. apply eqb_leb in E as [_ E].
    subst inside. now rewrite E, H1, H2, H3.
  - intros E H1 H2 H3. apply eqb_leb in E as [E _].
    subst inside. now rewrite E, H1, H2, H3.
  - intros E H1 H2 H3. apply eqb_leb in E as [_ E].
    subst inside. now rewrite E, H1, H2, H3.
  - intros E H1 H2 H3. apply eqb_leb in E as [E _].
    subst inside. now rewrite E, H1, H2, H3.
  - subst inside. intros [H|[H|[H|H]]]; apply ltb_not_leb in H; rewrite H;
      rewrite ?andb_false_r; reflexivity.
Qed.

Lemma region_transform_inclusive_witness :
  exists rows',
    adjust_extrusion {[ 0 := Rows [Row 0 0 1; Row 5 2 1; Row 10 10 2] ]} 0
      (0, 5)%float (0, 5)%float 2
    = Ok (<[0 := Rows rows']>
            {[ 0 := Rows [Row 0 0 1; Row 5 2 1; Row 10 10 2] ]}, 0)
    /\ rows' = [Row 0 0 2; Row 5 2 2; Row 10 10 2].
Proof.
  assert (Hg : ({[ 0 := Rows [Row 0 0 1; Row 5 2 1; Row 10 10 2] ]}
                 : gmap loc ndarray) !! 0
               = Some (Rows [Row 0 0 1; Row 5 2 1; Row 10 10 2]))
    by (vm_compute; reflexivity).
  destruct (region_transform_inclusive _ _ _ 0 5 0 5 2 Hg)
    as [rows' [Hrun [Hlen Hrows]]].
  exists rows'. split; [exact Hrun|].
  destruct (Hrows 0 _ eq_refl) as [H0 _].
  destruct (Hrows 1 _ eq_refl) as [H1 _].
  destruct (Hrows 2 _ eq_refl) as [H2 _].
  destruct rows' as [|a [|b [|c [|d rows']]]]; try discriminate Hlen.
  simpl in H0, H1, H2.
  injection H0 as ->. injection H1 as ->. injection H2 as ->.
  reflexivity.
Defined.

(** C8. The region transform rewrites only the deposition: [x] and [y] of
    every record stay, a record outside the region stays whole, no other
    array of the store is touched, and the reference returned is the one
    that was passed, to the array changed in place. *)
Theorem region_transform_frame (heap : gmap loc ndarray) gcode rows
  x_min x_max y_min y_max ratio :
  heap !! gcode = Some (Rows rows) ->
  exists heap' rows',
    adjust_extrusion heap gcode (x_min, x_max) (y_min, y_max) ratio
    = Ok (heap', gcode)
    /\ heap' !! gcode = Some (Rows rows')
    /\ (forall l, l <> gcode -> heap' !! l = heap !! l)
    /\ length rows' = length rows
    /\ forall n r, rows !! n = Some r ->
       exists r', rows' !! n = Some r'
         /\ col_x r' = col_x r /\ col_y r' = col_y r
         /\ (in_area x_min x_max y_min y_max r = false -> r' = r).
Proof.
  intros Hg. eexists. eexists.
  split; [exact (adjust_extrusion_rows _ _ _ _ _ _ _ _ Hg)|].
  split; [apply lookup_insert_eq|].
  split; [intros l Hl; now apply lookup_insert_ne|].
  split; [apply zip_with_mask_length|].
  intros n r Hn. eexists.
  split; [exact (zip_with_mask_lookup _ _ _ _ _ _ _ _ Hn)|].
  split; [apply imul_e_xy|]. split; [apply imul_e_xy|].
  now intros ->.
Qed.

Lemma region_transform_frame_witness :
  exists heap' rows',
    adjust_extrusion {[ 0 := Rows [Row 0 0 1; Row 10 10 2]; 1 := Flat0 ]} 0
      (0, 5)%float (0, 5)%float 3
    = Ok (heap', 0)
    /\ heap' !! 0 = Some (Rows rows')
    /\ heap' !! 1 = Some Flat0
    /\ rows' !! 1 = Some (Row 10 10 2).
Proof.
  assert (Hg : ({[ 0 := Rows [Row 0 0 1; Row 10 10 2]; 1 := Flat0 ]}
                 : gmap loc ndarray) !! 0
               = Some (Rows [Row 0 0 1; Row 10 10 2]))
    by (vm_compute; reflexivity).
  destruct (region_transform_frame _ _ _ 0 5 0 5 3 Hg)
    as [heap' [rows' [Hrun [Hat [Hother [Hlen Hrows]]]]]].
  exists heap', rows'. split; [exact Hrun|]. split; [exact Hat|].
  split; [rewrite Hother by discriminate; reflexivity|].
  destruct (Hrows 1 _ eq_refl) as [r' [Hr' [_ [_ Hout]]]].
  rewrite Hr'. f_equal. apply Hout. reflexivity.
Defined.

(** C5. The region transform compounds: for a record inside both regions,
    the transform with [r1] and then with [r2] leaves the deposition
    multiplied by [r1] and then by [r2], each time from the value stored;
    in particular the same operation twice multiplies twice. *)
Theorem region_transform_compounds (heap : gmap loc ndarray) gcode rows
  x_min1 x_max1 y_min1 y_max1 r1 x_min2 x_max2 y_min2 y_max2 r2 :
  heap !! gcode = Some (Rows rows) ->
  exists heap1 heap2 rows2,
    adjust_extrusion heap gcode (x_min1, x_max1) (y_min1, y_max1) r1
    = Ok (heap1, gcode)
    /\ adjust_extrusion heap1 gcode (x_min2, x_max2) (y_min2, y_max2) r2
       = Ok (heap2, gcode)
    /\ heap2 !! gcode = Some (Rows rows2)
    /\ (forall n r, rows !! n = Some r ->
        in_area x_min1 x_max1 y_min1 y_max1 r = true ->
        in_area x_min2 x_max2 y_min2 y_max2 r = true ->
        rows2 !! n
        = Some (Row (col_x r) (col_y r)
                  (PrimFloat.mul (PrimFloat.mul (col_e r) r1) r2)))
    /\ ((x_min2, x_max2, y_min2, y_max2, r2)
        = (x_min1, x_max1, y_min1, y_max1, r1) ->
        forall n r, rows !! n = Some r ->
        in_area x_min1 x_max1 y_min1 y_max1 r = true ->
        rows2 !! n
        = Some (Row (col_x r) (col_y r)
                  (PrimFloat.mul (PrimFloat.mul (col_e r) r1) r1))).
Proof.
  intros Hg. do 3 eexists.
  split; [exact (adjust_extrusion_rows _ _ _ _ _ _ _ _ Hg)|].
  split; [apply adjust_extrusion_rows, lookup_insert_eq|].
  split; [apply lookup_insert_eq|].
  assert (Hboth : forall n r, rows !! n = Some r ->
    in_area x_min1 x_max1 y_min1 y_max1 r = true ->
    in_area x_min2 x_max2 y_min2 y_max2 r = true ->
    zip_with (imul_e r2)
      (zip_with (imul_e r1) rows
         (map (in_area x_min1 x_max1 y_min1 y_max1) rows))
      (map (in_area x_min2 x_max2 y_min2 y_max2)
         (zip_with (imul_e r1) rows
            (map (in_area x_min1 x_max1 y_min1 y_max1) rows))) !! n
    = Some (Row (col_x r) (col_y r)
              (PrimFloat.mul (PrimFloat.mul (col_e r) r1) r2))).
  { intros n r Hn H1 H2.
    pose proof (zip_with_mask_lookup r1 x_min1 x_max1 y_min1 y_max1 _ _ _ Hn)
      as Hfirst.
    rewrite (zip_with_mask_lookup _ _ _ _ _ _ _ _ Hfirst).
    rewrite in_area_imul_e, H1, H2. reflexivity. }
  split; [exact Hboth|].
  intros E n r Hn H1. injection E as -> -> -> -> ->.
  now apply Hboth.
Qed.

Lemma region_transform_compounds_witness :
  exists heap1 heap2 rows2,
    adjust_extrusion {[ 0 := Rows [Row 1 1 1; Row 9 9 1] ]} 0
      (0, 5)%float (0, 5)%float 2 = Ok (heap1, 0)
    /\ adjust_extrusion heap1 0 (0, 5)%float (0, 5)%float 2 = Ok (heap2, 0)
    /\ heap2 !! 0 = Some (Rows rows2)
    /\ rows2 !! 0 = Some (Row 1 1 4).
Proof.
  assert (Hg : ({[ 0 := Rows [Row 1 1 1; Row 9 9 1] ]}
                 : gmap loc ndarray) !! 0
               = Some (Rows [Row 1 1 1; Row 9 9 1]))
    by (vm_compute; reflexivity).
  destruct (region_transform_compounds _ _ _ 0 5 0 5 2 0 5 0 5 2 Hg)
    as [heap1 [heap2 [rows2 [Hrun1 [Hrun2 [Hat [_ Htwice]]]]]]].
  exists heap1, heap2, rows2.
  split; [exact Hrun1|]. split; [exact Hrun2|]. split; [exact Hat|].
  exact (Htwice eq_refl 0 (Row 1 1 1) eq_refl eq_refl).
Defined.

(** ** The extractor *)

Section Extractor.

Variable float_of_str : str -> option float.

Lemma startswith_marker part (m : ascii) :
  startswith part [m] = true <-> exists rest, part = m :: rest.
Proof.
  destruct part as [|c rest]; simpl.
  - split; [discriminate | intros [? ?]; discriminate].
  - rewrite andb_true_r. split.
    + intros E. apply ascii_eqb_true in E. subst. now eexists.
    + intros [? E]. injection E as -> _. apply Ascii.eqb_refl.
Qed.

(** A token that bears a marker is parsed, whatever was read before it. *)
Lemma scan_part_marked f part :
  marked part = true ->
  scan_part float_of_str f part
  = match float_of_str (drop 1 part) with
    | None => Raise ValueError
    | Some v =>
        Ok (if startswith part (lit "X") then (Some v, f.1.2, f.2)
            else if startswith part (lit "Y") then (f.1.1, Some v, f.2)
            else (f.1.1, f.1.2, Some v))
    end.
Proof.
  destruct f as [[x y] e]. unfold marked, scan_part, float_, bind.
  cbn [fst snd].
  destruct (startswith part (lit "X")), (startswith part (lit "Y")),
    (startswith part (lit "E")); cbn [orb]; intros Hm; try discriminate;
    now destruct (float_of_str (drop 1 part)).
Qed.

Lemma scan_part_unmarked f part :
  marked part = false -> scan_part float_of_str f part = Ok f.
Proof.
  destruct f as [[x y] e]. unfold marked, scan_part.
  destruct (startswith part (lit "X")), (startswith part (lit "Y")),
    (startswith part (lit "E")); cbn [orb]; intros Hm; try discriminate.
  reflexivity.
Qed.

(** A marked token that is not a number aborts the scan of its line. *)
Lemma scan_parts_malformed parts : forall f part,
  part ∈ parts -> marked part = true ->
  float_of_str (drop 1 part) = None ->
  scan_parts float_of_str f parts = Raise ValueError.
Proof.
  induction parts as [|q parts IH]; intros f part Hin Hm Hbad.
  - inversion Hin.
  - cbn [scan_parts]. destruct (marked q) eqn:Hq.
    + rewrite (scan_part_marked _ _ Hq).
      destruct (float_of_str (drop 1 q)) as [v|] eqn:Hv; [|reflexivity].
      unfold bind. apply IH with part; try assumption.
      apply elem_of_cons in Hin as [->|Hin]; [congruence | assumption].
    + rewrite (scan_part_unmarked _ _ Hq). unfold bind.
      apply IH with part; try assumption.
      apply elem_of_cons in Hin as [->|Hin]; [congruence | assumption].
Qed.

(** The scans raise nothing but [ValueError]. *)
Lemma scan_parts_raises parts : forall f e,
  scan_parts float_of_str f parts = Raise e -> e = ValueError.
Proof.
  induction parts as [|q parts IH]; intros f e Hs; [discriminate|].
  cbn [scan_parts] in Hs. destruct (marked q) eqn:Hq.
  - rewrite (scan_part_marked _ _ Hq) in Hs.
    destruct (float_of_str (drop 1 q)); unfold bind in Hs;
      [now apply IH in Hs | now injection Hs].
  - rewrite (scan_part_unmarked _ _ Hq) in Hs. now apply IH in Hs.
Qed.

Lemma scan_line_raises acc line e :
  scan_line float_of_str acc line = Raise e -> e = ValueError.
Proof.
  unfold scan_line. destruct (contains line G1); [|discriminate].
  destruct (scan_parts float_of_str (None, None, None) (split (strip line)))
    as [[[[x|] [y|]] [v|]]|e'] eqn:Hs; unfold bind; try discriminate.
  intros E. injection E as <-. now apply scan_parts_raises in Hs.
Qed.

Lemma scan_lines_malformed lines : forall acc line part,
  line ∈ lines -> tagged line = true ->
  part ∈ parts_of line -> marked part = true ->
  float_of_str (drop 1 part) = None ->
  scan_lines float_of_str acc lines = Raise ValueError.
Proof.
  induction lines as [|l lines IH]; intros acc line part Hin Ht Hp Hm Hbad.
  - inversion Hin.
  - cbn [scan_lines]. apply elem_of_cons in Hin as [<-|Hin].
    + unfold scan_line. fold (tagged line). rewrite Ht. fold (parts_of line).
      now rewrite (scan_parts_malformed _ _ _ Hp Hm Hbad).
    + destruct (scan_line float_of_str acc l) as [acc'|e] eqn:Hl; unfold bind.
      * now apply IH with line part.
      * now rewrite (scan_line_raises _ _ _ Hl).
Qed.

(** Closes the equivalences between a field being set and a marker having
    been met. *)
Ltac fields_solver :=
  unfold is_Some;
  repeat split;
  intros;
  repeat match goal with
         | H : _ \/ _ |- _ => destruct H
         | H : exists _, _ |- _ => destruct H
         end;
  try discriminate;
  eauto.

Lemma startswith_other part (a b : ascii) :
  a <> b -> startswith part [a] = true -> startswith part [b] = false.
Proof.
  intros Hab Ha. apply startswith_marker in Ha as [rest ->].
  cbn [startswith]. rewrite andb_true_r.
  destruct (Ascii.eqb b a) eqn:E; [|reflexivity].
  apply ascii_eqb_true in E. congruence.
Qed.

(** Which fields are set after one token. *)
Lemma scan_part_fields f part f' :
  scan_part float_of_str f part = Ok f' ->
  (is_Some f'.1.1 <-> is_Some f.1.1 \/ startswith part (lit "X") = true)
  /\ (is_Some f'.1.2 <-> is_Some f.1.2 \/ startswith part (lit "Y") = true)
  /\ (is_Some f'.2 <-> is_Some f.2 \/ startswith part (lit "E") = true).
Proof.
  destruct f as [[x y] e]. unfold scan_part, float_, bind.
  change (lit "X") with ["X"%char]. change (lit "Y") with ["Y"%char].
  change (lit "E") with ["E"%char].
  destruct (startswith part ["X"%char]) eqn:HX.
  { rewrite (startswith_other part "X" "Y"), (startswith_other part "X" "E");
      try assumption; try discriminate.
    destruct (float_of_str (drop 1 part)); [|discriminate].
    intros E. injection E as <-. cbn [fst snd]. fields_solver. }
  destruct (startswith part ["Y"%char]) eqn:HY.
  { rewrite (startswith_other part "Y" "E"); try assumption; try discriminate.
    destruct (float_of_str (drop 1 part)); [|discriminate].
    intros E. injection E as <-. cbn [fst snd]. fields_solver. }
  destruct (startswith part ["E"%char]) eqn:HE.
  { destruct (float_of_str (drop 1 part)); [|discriminate].
    intros E. injection E as <-. cbn [fst snd]. fields_solver. }
  intros E. injection E as <-. cbn [fst snd]. fields_solver.
Qed.

Lemma has_marker_cons marker part parts :
  has_marker marker (part :: parts)
  = startswith part (lit marker) || has_marker marker parts.
Proof. reflexivity. Qed.

(** Which fields are set after the tokens of a line. *)
Lemma scan_parts_fields parts : forall f f',
  scan_parts float_of_str f parts = Ok f' ->
  (is_Some f'.1.1 <-> is_Some f.1.1 \/ has_marker "X" parts = true)
  /\ (is_Some f'.1.2 <-> is_Some f.1.2 \/ has_marker "Y" parts = true)
  /\ (is_Some f'.2 <-> is_Some f.2 \/ has_marker "E" parts = true).
Proof.
  induction parts as [|q parts IH]; intros f f' Hs.
  - injection Hs as <-. unfold has_marker. cbn [existsb]. fields_solver.
  - cbn [scan_parts] in Hs.
    destruct (scan_part float_of_str f q) as [f1|] eqn:Hq; [|discriminate].
    unfold bind in Hs.
    apply scan_part_fields in Hq as (HX & HY & HE).
    apply IH in Hs as (HX' & HY' & HE').
    rewrite !has_marker_cons, !orb_true_iff.
    rewrite HX', HY', HE', HX, HY, HE. tauto.
Qed.

(** When the scan of a line goes through, every marked token was parsed. *)
Lemma scan_parts_parsed parts f f' part :
  scan_parts float_of_str f parts = Ok f' ->
  part ∈ parts -> marked part = true ->
  exists v, float_of_str (drop 1 part) = Some v.
Proof.
  intros Hs Hin Hm.
  destruct (float_of_str (drop 1 part)) as [v|] eqn:Hv; [now exists v|].
  rewrite (scan_parts_malformed _ _ _ Hin Hm Hv) in Hs. discriminate.
Qed.

Lemma has_marker_elem marker parts :
  has_marker marker parts = true <->
  exists part, part ∈ parts /\ startswith part (lit marker) = true.
Proof.
  unfold has_marker. rewrite existsb_exists.
  split; intros [part [Hin Hs]]; exists part; split; try assumption;
    now apply list_elem_of_In.
Qed.

Lemma has_field_marker marker parts :
  has_field float_of_str marker parts -> has_marker marker parts = true.
Proof.
  intros (part & v & Hin & Hs & _). apply has_marker_elem. now exists part.
Qed.

Lemma scan_line_ok acc line out :
  scan_line float_of_str acc line = Ok out ->
  out = acc ++ line_record float_of_str line
  /\ (tagged line = true ->
      exists f, scan_parts float_of_str (None, None, None) (parts_of line)
                = Ok f).
Proof.
  unfold scan_line, line_record, tagged, parts_of.
  destruct (contains line G1).
  - destruct (scan_parts float_of_str (None, None, None) (split (strip line)))
      as [[[[x|] [y|]] [e|]]|] eqn:Hs; unfold bind; try discriminate;
      intros E; injection E as <-; rewrite ?app_nil_r; eauto.
  - intros E. injection E as <-. rewrite app_nil_r. split; [reflexivity|].
    discriminate.
Qed.

Lemma scan_lines_ok lines : forall acc out,
  scan_lines float_of_str acc lines = Ok out ->
  out = acc ++ concat (map (line_record float_of_str) lines)
  /\ forall line, line ∈ lines -> tagged line = true ->
     exists f, scan_parts float_of_str (None, None, None) (parts_of line)
               = Ok f.
Proof.
  induction lines as [|l lines IH]; intros acc out Hs.
  - injection Hs as <-. rewrite app_nil_r. split; [reflexivity|].
    intros line Hin. inversion Hin.
  - cbn [scan_lines] in Hs.
    destruct (scan_line float_of_str acc l) as [acc'|] eqn:Hl; [|discriminate].
    unfold bind in Hs.
    apply scan_line_ok in Hl as [-> Hl].
    apply IH in Hs as [-> Hrest].
    split; [cbn [map concat]; now rewrite app_assoc|].
    intros line Hin Ht. apply elem_of_cons in Hin as [->|Hin]; auto.
Qed.

Lemma lookup_map {A B} (f : A -> B) (l : list A) n :
  map f l !! n = f <$> l !! n.
Proof.
  revert n. induction l as [|a l IH]; intros [|n]; simpl; auto.
Qed.

Lemma rows_of_np_array l : rows_of (np_array l) = l.
Proof. now destruct l. Qed.

(** The record of a line whose scan went through. *)
Lemma line_record_one line f :
  tagged line = true ->
  scan_parts float_of_str (None, None, None) (parts_of line) = Ok f ->
  length (line_record float_of_str line) <= 1
  /\ (length (line_record float_of_str line) = 1 <->
      has_field float_of_str "X" (parts_of line)
      /\ has_field float_of_str "Y" (parts_of line)
      /\ has_field float_of_str "E" (parts_of line))
  /\ (has_marker "X" (parts_of line) && has_marker "Y" (parts_of line)
      && has_marker "E" (parts_of line) = false ->
      line_record float_of_str line = []).
Proof.
  intros Ht Hs.
  assert (Hfield : forall marker,
    marker = "X"%string \/ marker = "Y"%string \/ marker = "E"%string ->
    has_marker marker (parts_of line) = true ->
    has_field float_of_str marker (parts_of line)).
  { intros marker Hmk Hm. apply has_marker_elem in Hm as [part [Hin Hp]].
    destruct (scan_parts_parsed _ _ _ part Hs Hin) as [v Hv].
    - unfold marked. destruct Hmk as [->|[->| ->]]; rewrite Hp;
        rewrite ?orb_true_r; reflexivity.
    - now exists part, v. }
  assert (Hnone : ~ is_Some (@None float)) by (intros [? ?]; discriminate).
  assert (Hset : forall o : option float, forall marker,
    (is_Some o <-> is_Some (@None float)
                   \/ has_marker marker (parts_of line) = true) ->
    is_Some o <-> has_marker marker (parts_of line) = true).
  { intros o marker H. rewrite H. split; [|now right].
    intros [H'|H']; [destruct (Hnone H') | exact H']. }
  pose proof (scan_parts_fields _ _ _ Hs) as (HX & HY & HE).
  cbn [fst snd] in HX, HY, HE.
  apply Hset in HX, HY, HE. clear Hset.
  unfold line_record. fold (tagged line). rewrite Ht.
  fold (parts_of line). rewrite Hs.
  destruct f as [[[x|] [y|]] [e|]]; cbn [fst snd] in *; cbn [length].
  1: { assert (MX : has_marker "X" (parts_of line) = true)
         by (apply HX; eauto).
       assert (MY : has_marker "Y" (parts_of line) = true)
         by (apply HY; eauto).
       assert (ME : has_marker "E" (parts_of line) = true)
         by (apply HE; eauto).
       split; [lia|]. split.
       - split; [intros _|reflexivity]. repeat split; apply Hfield; auto.
       - rewrite MX, MY, ME. discriminate. }
  all: split; [lia|]; split; [|reflexivity];
    split; [discriminate|]; intros (FX & FY & FE); exfalso;
    apply has_field_marker in FX, FY, FE;
    first [ now apply Hnone, HX | now apply Hnone, HY | now apply Hnone, HE ].
Qed.

(** The value a field has after one token. *)
Lemma scan_part_values f part f' :
  scan_part float_of_str f part = Ok f' ->
  (if startswith part (lit "X")
   then exists v, float_of_str (drop 1 part) = Some v /\ f'.1.1 = Some v
   else f'.1.1 = f.1.1)
  /\ (if startswith part (lit "Y")
      then exists v, float_of_str (drop 1 part) = Some v /\ f'.1.2 = Some v
      else f'.1.2 = f.1.2)
  /\ (if startswith part (lit "E")
      then exists v, float_of_str (drop 1 part) = Some v /\ f'.2 = Some v
      else f'.2 = f.2).
Proof.
  destruct f as [[x y] e]. unfold scan_part, float_, bind.
  change (lit "X") with ["X"%char]. change (lit "Y") with ["Y"%char].
  change (lit "E") with ["E"%char].
  destruct (startswith part ["X"%char]) eqn:HX.
  { rewrite (startswith_other part "X" "Y"), (startswith_other part "X" "E");
      try assumption; try discriminate.
    destruct (float_of_str (drop 1 part)) as [v|]; [|discriminate].
    intros E. injection E as <-. cbn [fst snd]. eauto. }
  destruct (startswith part ["Y"%char]) eqn:HY.
  { rewrite (startswith_other part "Y" "E"); try assumption; try discriminate.
    destruct (float_of_str (drop 1 part)) as [v|]; [|discriminate].
    intros E. injection E as <-. cbn [fst snd]. eauto. }
  destruct (startswith part ["E"%char]) eqn:HE.
  { destruct (float_of_str (drop 1 part)) as [v|]; [|discriminate].
    intros E. injection E as <-. cbn [fst snd]. eauto. }
  intros E. injection E as <-. cbn [fst snd]. auto.
Qed.

(** One field of the three, read by [get] and set by the tokens that start
    with [marker]. *)
Section Field.

Variable marker : string.
Variable get : fields -> option float.

Hypothesis get_step : forall f part f',
  scan_part float_of_str f part = Ok f' ->
  if startswith part (lit marker)
  then exists v, float_of_str (drop 1 part) = Some v /\ get f' = Some v
  else get f' = get f.

(** After the tokens of a line the field holds the number of the last
    token with its marker, or what it held before when there is none. *)
Lemma scan_parts_last parts : forall f f',
  scan_parts float_of_str f parts = Ok f' ->
  if has_marker marker parts
  then exists v, get f' = Some v /\ last_field float_of_str marker parts v
  else get f' = get f.
Proof using get_step.
  induction parts as [|q parts IH]; intros f f' Hs.
  - injection Hs as <-. reflexivity.
  - cbn [scan_parts] in Hs.
    destruct (scan_part float_of_str f q) as [f1|] eqn:Hq; [|discriminate].
    unfold bind in Hs. apply get_step in Hq. apply IH in Hs.
    rewrite has_marker_cons.
    destruct (has_marker marker parts) eqn:Hm.
    + rewrite orb_true_r. destruct Hs as (v & Hv & before & p & after & Hl).
      exists v. split; [exact Hv|].
      exists (q :: before), p, after.
      destruct Hl as (-> & Hl). split; [reflexivity | exact Hl].
    + rewrite orb_false_r. destruct (startswith q (lit marker)) eqn:Hstart.
      * destruct Hq as (v & Hv & Hget). exists v.
        split; [congruence|]. exists [], q, parts. auto.
      * congruence.
Qed.

End Field.

(** The record of a line whose scan went through holds the numbers of the
    last token of each marker. *)
Lemma line_record_values line f r :
  tagged line = true ->
  scan_parts float_of_str (None, None, None) (parts_of line) = Ok f ->
  r ∈ line_record float_of_str line ->
  line_record float_of_str line = [r]
  /\ last_field float_of_str "X" (parts_of line) (col_x r)
  /\ last_field float_of_str "Y" (parts_of line) (col_y r)
  /\ last_field float_of_str "E" (parts_of line) (col_e r).
Proof.
  intros Ht Hs Hr.
  pose proof (scan_parts_last "X" (fun f => f.1.1)
                (fun f q f' H => proj1 (scan_part_values f q f' H))
                _ _ _ Hs) as HX.
  pose proof (scan_parts_last "Y" (fun f => f.1.2)
                (fun f q f' H => proj1 (proj2 (scan_part_values f q f' H)))
                _ _ _ Hs) as HY.
  pose proof (scan_parts_last "E" (fun f => f.2)
                (fun f q f' H => proj2 (proj2 (scan_part_values f q f' H)))
                _ _ _ Hs) as HE.
  unfold line_record in Hr |- *. fold (tagged line) in Hr |- *.
  rewrite Ht in Hr |- *. fold (parts_of line) in Hr |- *.
  rewrite Hs in Hr |- *.
  destruct f as [[[x|] [y|]] [e|]]; try (inversion Hr; fail).
  apply list_elem_of_singleton in Hr. subst r. cbn [fst snd col_x col_y col_e] in *.
  split; [reflexivity|].
  destruct (has_marker "X" (parts_of line)); [|discriminate HX].
  destruct (has_marker "Y" (parts_of line)); [|discriminate HY].
  destruct (has_marker "E" (parts_of line)); [|discriminate HE].
  destruct HX as (vx & Ex & HX). destruct HY as (vy & Ey & HY).
  destruct HE as (ve & Ee & HE).
  injection Ex as ->. injection Ey as ->. injection Ee as ->. auto.
Qed.

(** C3. When the extractor returns, the array is made of the records of
    the lines of the file, line after line in the order of the lines. Each
    line gives exactly one record if it contains [G1] and has tokens that
    start with [X], with [Y] and with [E] and whose remainders are numbers,
    and none otherwise, in particular none when one of the three markers is
    missing. The record of a line holds the numbers of that line: those of
    its last token that starts with [X], with [Y] and with [E]. *)
Theorem extraction_selective (fs : gmap string str) file_path text a :
  fs !! file_path = Some text ->
  parse_gcode float_of_str fs file_path = Ok a ->
  exists per : list (list row),
    rows_of a = concat per
    /\ Forall2
         (fun line rs =>
            (rs = [] \/
             exists r, rs = [r]
               /\ last_field float_of_str "X" (split (strip line)) (col_x r)
               /\ last_field float_of_str "Y" (split (strip line)) (col_y r)
               /\ last_field float_of_str "E" (split (strip line)) (col_e r))
            /\ (length rs = 1 <->
                contains line G1 = true
                /\ has_field float_of_str "X" (split (strip line))
                /\ has_field float_of_str "Y" (split (strip line))
                /\ has_field float_of_str "E" (split (strip line)))
            /\ (contains line G1 = true ->
                has_marker "X" (split (strip line))
                && has_marker "Y" (split (strip line))
                && has_marker "E" (split (strip line)) = false ->
                rs = []))
         (readlines text) per.
Proof.
  intros Hfile Hparse. unfold parse_gcode in Hparse. rewrite Hfile in Hparse.
  destruct (scan_lines float_of_str [] (readlines text)) as [out|] eqn:Hs;
    [|discriminate].
  injection Hparse as <-.
  apply scan_lines_ok in Hs as [-> Hlines].
  exists (map (line_record float_of_str) (readlines text)).
  split; [apply rows_of_np_array|].
  apply Forall2_fmap_r, Forall2_same_length_lookup_2; [reflexivity|].
  intros n line line0 Hn Hn0. rewrite Hn in Hn0. injection Hn0 as <-.
  unfold compose. destruct (contains line G1) eqn:Ht.
  - destruct (Hlines line) as [f Hf];
      [now apply list_elem_of_lookup_2 in Hn | exact Ht |].
    destruct (line_record_one line f Ht Hf) as (Hle & Hone & Hnone).
    split; [|split; [|auto]].
    + destruct (line_record float_of_str line) as [|r rs] eqn:Hrec;
        [now left | right].
      destruct (line_record_values line f r Ht Hf) as (Hr & HX & HY & HE);
        [rewrite Hrec; now left|].
      exists r. rewrite <- Hrec. auto.
    + rewrite Hone. fold (parts_of line). tauto.
  - assert (E : line_record float_of_str line = [])
      by (unfold line_record; now rewrite Ht).
    rewrite E. cbn [length]. split; [now left|].
    split; [|discriminate]. split; [discriminate | intros [? _]; discriminate].
Qed.

(** C7. A tagged line with a token that starts with [X], [Y] or [E] and
    whose remainder is not a number makes the extraction raise: no array
    is returned, the script stops there and the files are left as they
    were, so no output file is written. *)
Theorem malformed_number_aborts (fs : gmap string str) text n line part
  events :
  fs !! input_file = Some text ->
  readlines text !! n = Some line ->
  contains line G1 = true ->
  part ∈ split (strip line) ->
  startswith part (lit "X") = true \/ startswith part (lit "Y") = true
  \/ startswith part (lit "E") = true ->
  float_of_str (drop 1 part) = None ->
  parse_gcode float_of_str fs input_file = Raise ValueError
  /\ main float_of_str fs events = (fs, Raise ValueError).
Proof.
  intros Hfile Hn Ht Hin Hm Hbad.
  assert (Hparse : parse_gcode float_of_str fs input_file = Raise ValueError).
  { unfold parse_gcode. rewrite Hfile.
    rewrite (scan_lines_malformed (readlines text) [] line part);
      try assumption; try reflexivity.
    - now apply list_elem_of_lookup_2 in Hn.
    - unfold marked. destruct Hm as [->|[->| ->]];
        rewrite ?orb_true_r; reflexivity. }
  split; [exact Hparse|]. unfold main. now rewrite Hparse.
Qed.

End Extractor.

Lemma extraction_selective_witness :
  exists per : list (list row),
    [Row 0 0 1; Row 10 10 2] = concat per
    /\ per !! 1 = Some []
    /\ exists r, per !! 2 = Some [r]
         /\ last_field py_float "E" (split (strip (ln "G1 X10 Y10 E2")))
              (col_e r).
Proof.
  pose (text := ln "G1 X0 Y0 E1" ++ ln "G1 E-2 F1800" ++ ln "G1 X10 Y10 E2").
  assert (Hfile : ({[ input_file := text ]} : gmap string str) !! input_file
                  = Some text) by (vm_compute; reflexivity).
  assert (Hparse : parse_gcode py_float {[ input_file := text ]} input_file
                   = Ok (Rows [Row 0 0 1; Row 10 10 2]))
    by (vm_compute; reflexivity).
  destruct (extraction_selective py_float _ _ _ _ Hfile Hparse)
    as (per & Hrows & Hlines).
  exists per. split; [exact Hrows|].
  destruct (Forall2_lookup_l _ _ _ 1 (ln "G1 E-2 F1800") Hlines eq_refl)
    as (rs1 & Hrs1 & _ & _ & Hnone).
  destruct (Forall2_lookup_l _ _ _ 2 (ln "G1 X10 Y10 E2") Hlines eq_refl)
    as (rs2 & Hrs2 & Hval & Hone & _).
  split.
  { rewrite Hrs1. f_equal. apply Hnone; vm_compute; reflexivity. }
  destruct Hval as [->|(r & -> & _ & _ & HE)].
  - exfalso. assert (H : length (@nil row) = 1); [|discriminate H].
    apply Hone. split; [vm_compute; reflexivity|].
    split; [|split].
    + exists (lit "X10"), 10%float.
      split; [apply list_elem_of_In; vm_compute; auto 10|].
      split; vm_compute; reflexivity.
    + exists (lit "Y10"), 10%float.
      split; [apply list_elem_of_In; vm_compute; auto 10|].
      split; vm_compute; reflexivity.
    + exists (lit "E2"), 2%float.
      split; [apply list_elem_of_In; vm_compute; auto 10|].
      split; vm_compute; reflexivity.
  - exists r. split; [exact Hrs2 | exact HE].
Defined.

Lemma malformed_number_aborts_witness :
  parse_gcode py_float {[ input_file := ln "G1 X1 Y2 Eabc" ]} input_file
  = Raise ValueError
  /\ main py_float {[ input_file := ln "G1 X1 Y2 Eabc" ]} []
     = ({[ input_file := ln "G1 X1 Y2 Eabc" ]}, Raise ValueError).
Proof.
  apply (malformed_number_aborts py_float _ (ln "G1 X1 Y2 Eabc") 0
           (ln "G1 X1 Y2 Eabc") (lit "Eabc")).
  - vm_compute; reflexivity.
  - vm_compute; reflexivity.
  - vm_compute; reflexivity.
  - apply list_elem_of_In. vm_compute. auto 10.
  - right. right. vm_compute; reflexivity.
  - vm_compute; reflexivity.
Defined.

(** ** The rewriter: the statements *)

Lemma count_E_app l1 l2 : count_E (l1 ++ l2) = count_E l1 + count_E l2.
Proof. unfold count_E. now rewrite List.filter_app, length_app. Qed.

Lemma count_E_take_lt parts p part :
  parts !! p = Some part -> is_E part = true ->
  count_E (take p parts) < count_E parts.
Proof.
  intros Hp HE. rewrite <- (take_drop_middle parts p part Hp) at 2.
  rewrite count_E_app, count_E_cons, HE. lia.
Qed.




(** C10. On a line with [G1], reached with the cursor at [i] after the
    lines [before], the cursor moves once for each token that starts with
    [E], not once for the line, and stops at the length of the array: it
    ends at [min (i + k) (len a)] for [k] such tokens, so it never
    decreases and never passes the length, and stays when [k = 0]. While
    [i + k] records exist, each such token is replaced by the formatted
    deposition of its own record and [k] records are used. *)
Theorem cursor_advances_per_E_token path a (fs : gmap string str) before line :
  contains line G1 = true ->
  let parts := split (strip line) in
  let k := length (List.filter (fun part => startswith part (lit "E")) parts) in
  exists fs1 i written,
    emit_lines path a fs 0 before = (fs1, Ok i)
    /\ emit_line path a fs1 i line
       = (fs_write path (join (lit " ") written ++ [LF]) fs1,
          Ok (Nat.min (i + k) (len a)))
    /\ i <= Nat.min (i + k) (len a) <= len a
    /\ (k = 0 -> Nat.min (i + k) (len a) = i)
    /\ (i + k <= len a ->
        Nat.min (i + k) (len a) = i + k
        /\ forall p part, parts !! p = Some part ->
           startswith part (lit "E") = true ->
           exists v,
             item_e a (i + length (List.filter
                                     (fun part => startswith part (lit "E"))
                                     (take p parts))) = Ok v
             /\ written !! p = Some (lit "E" ++ format_5f v)).
Proof.
  intros Ht parts k.
  fold is_E in k |- *. fold (count_E parts) in k.
  exists (fs_write path (concat (written_lines (rows_of a) 0 before)) fs),
    (Nat.min (E_seen before) (len a)),
    (written_parts (rows_of a) (E_seen before) parts).
  split; [now rewrite (emit_lines_spec _ _ _ _ 0 0) by lia|].
  split.
  { rewrite (emit_line_spec _ _ _ _ (E_seen before)) by reflexivity.
    unfold written_line, tagged. rewrite Ht. fold (parts_of line).
    do 2 f_equal. subst k parts. unfold parts_of. lia. }
  split; [lia|]. split; [lia|].
  intros Hk. split; [lia|].
  intros p part Hp HE.
  pose proof (count_E_take_lt _ _ _ Hp HE) as Hlt. fold k in Hlt.
  fold (count_E (take p parts)).
  assert (Hv : Nat.min (E_seen before) (len a) = E_seen before) by lia.
  rewrite Hv.
  assert (Hr : E_seen before + count_E (take p parts) < length (rows_of a))
    by (rewrite <- len_rows_of; lia).
  destruct (lookup_lt_is_Some_2 _ _ Hr) as [r Hrow].
  exists (col_e r). split; [now apply item_e_rows|].
  rewrite (written_parts_lookup _ _ _ _ _ Hp). unfold written_part, is_E.
  now rewrite HE, Hrow.
Qed.

Lemma cursor_advances_per_E_token_witness :
  exists fs1 i written,
    emit_lines output_file (Rows [Row 0 0 1; Row 1 1 2; Row 2 2 3])
      ({[ output_file := [] ]} : gmap string str) 0 [ln "G1 X0 Y0 E9"]
    = (fs1, Ok i)
    /\ emit_line output_file (Rows [Row 0 0 1; Row 1 1 2; Row 2 2 3]) fs1 i
         (ln "G1 E7 X1 E8")
       = (fs_write output_file (join (lit " ") written ++ [LF]) fs1, Ok 3)
    /\ written !! 3 = Some (lit "E3.00000").
Proof.
  destruct (cursor_advances_per_E_token output_file
              (Rows [Row 0 0 1; Row 1 1 2; Row 2 2 3])
              ({[ output_file := [] ]} : gmap string str)
              [ln "G1 X0 Y0 E9"] (ln "G1 E7 X1 E8") eq_refl)
    as (fs1 & i & written & Hbefore & Hline & _ & _ & Hrepl).
  exists fs1, i, written. split; [exact Hbefore|].
  assert (Hi : i = 1).
  { rewrite (emit_lines_spec _ _ _ _ 0 0) in Hbefore by reflexivity.
    injection Hbefore as _ <-. reflexivity. }
  subst i. split; [exact Hline|].
  destruct Hrepl as [_ Hrepl]; [vm_compute; lia|].
  destruct (Hrepl 3 (lit "E8") eq_refl eq_refl) as (v & Hv & Hw).
  vm_compute in Hv. injection Hv as <-. exact Hw.
Defined.

Lemma count_E_take_le parts p0 p :
  p0 <= p -> count_E (take p0 parts) <= count_E (take p parts).
Proof.
  intros Hp. replace p with (p0 + (p - p0)) by lia.
  rewrite <- take_take_drop, count_E_app. lia.
Qed.

Lemma count_E_take parts p : count_E (take p parts) <= count_E parts.
Proof.
  rewrite <- (take_drop p parts) at 2. rewrite count_E_app. lia.
Qed.

Lemma E_seen_take_le lines n0 n :
  n0 <= n -> E_seen (take n0 lines) <= E_seen (take n lines).
Proof.
  intros Hn. replace n with (n0 + (n - n0)) by lia.
  rewrite <- take_take_drop, E_seen_app. lia.
Qed.

Lemma E_seen_take lines n : E_seen (take n lines) <= E_seen lines.
Proof.
  rewrite <- (take_drop n lines) at 2. rewrite E_seen_app. lia.
Qed.

Lemma E_seen_take_S lines n line :
  lines !! n = Some line ->
  E_seen (take (S n) lines)
  = E_seen (take n lines) + (if tagged line then count_E (parts_of line) else 0).
Proof.
  intros Hn. rewrite (take_S_r _ _ _ Hn), E_seen_app. cbn [E_seen]. lia.
Qed.

(** C6. In a rewrite to a file other than the original, let the cursor
    have reached the end of the array when token [p0] of the tagged line
    [n0] is about to be read, be it at the start of that line, in the
    middle of it or after its last token. Then every token from there on,
    deposition tokens included, is written as it is: the tokens of line [n0]
    from [p0] on and all the tokens of the later tagged lines; the lines
    without [G1] are written as they are; the cursor ends where it was, at
    the length of the array; and the rewrite returns without an exception,
    having written one line for each line of the original. *)
Theorem exhausted_records_keep_tokens (fs : gmap string str) path a orig text
  n0 line0 p0 fs1 i written0 :
  path <> orig ->
  fs !! orig = Some text ->
  readlines text !! n0 = Some line0 ->
  contains line0 G1 = true ->
  emit_lines path a (<[path := []]> fs) 0 (take n0 (readlines text))
  = (fs1, Ok i) ->
  emit_parts a ([], i) (take p0 (split (strip line0)))
  = Ok (written0, len a) ->
  exists out,
    write_gcode fs path a orig = (<[path := out]> fs, Ok (len a))
    /\ length (readlines out) = length (readlines text)
    /\ forall n line, readlines text !! n = Some line -> n0 <= n ->
       exists line', readlines out !! n = Some line'
       /\ (contains line G1 = false -> line' = line)
       /\ (contains line G1 = true ->
           line' = join (lit " ") (split (strip line')) ++ [LF]
           /\ length (split (strip line')) = length (split (strip line))
           /\ forall p part, split (strip line) !! p = Some part ->
              n0 < n \/ p0 <= p ->
              split (strip line') !! p = Some part).
Proof.
  intros Hne Horig Hn0 Ht0 Hbefore Hparts.
  set (v0 := E_seen (take n0 (readlines text))).
  assert (Hrun := emit_lines_spec path a (take n0 (readlines text))
                    (<[path := []]> fs) 0 0 ltac:(lia)).
  rewrite Hbefore in Hrun. injection Hrun as _ Hi.
  cbn [Nat.add] in Hi. fold v0 in Hi.
  fold (parts_of line0) in Hparts.
  rewrite (emit_parts_spec _ _ _ _ v0 Hi) in Hparts.
  injection Hparts as _ Hcur.
  assert (Hfull : length (rows_of a)
                  <= v0 + count_E (take p0 (parts_of line0)))
    by (rewrite <- len_rows_of; lia).
  clear Hcur Hi Hbefore.
  assert (Hnext : E_seen (take (S n0) (readlines text))
                  = v0 + count_E (parts_of line0)).
  { rewrite (E_seen_take_S _ _ _ Hn0). unfold tagged. now rewrite Ht0. }
  exists (concat (written_lines (rows_of a) 0 (readlines text))).
  split.
  { rewrite (write_gcode_spec _ _ _ _ _ Hne Horig). do 2 f_equal.
    pose proof (E_seen_take (readlines text) (S n0)).
    pose proof (count_E_take (parts_of line0) p0).
    rewrite len_rows_of. lia. }
  rewrite readlines_written.
  split; [apply written_lines_length|].
  intros n line Hn Hle. eexists.
  split; [exact (written_lines_lookup _ _ _ _ _ Hn)|].
  rewrite Nat.add_0_l.
  set (m := E_seen (take n (readlines text))).
  split.
  - intros Ht. unfold written_line, tagged. now rewrite Ht.
  - intros Ht. fold (parts_of (written_line (rows_of a) m line)).
    fold (parts_of line).
    rewrite (parts_of_written_line _ _ _ Ht).
    split; [unfold written_line, tagged; now rewrite Ht|].
    split; [apply written_parts_length|].
    intros p part Hp Hpos.
    rewrite (written_parts_lookup _ _ _ _ _ Hp). f_equal.
    unfold written_part.
    assert (Hgone : length (rows_of a) <= m + count_E (take p (parts_of line))).
    { destruct Hpos as [Hlt|Hpos].
      - pose proof (E_seen_take_le (readlines text) (S n0) n ltac:(lia))
          as Hmono.
        fold m in Hmono.
        pose proof (count_E_take (parts_of line0) p0). lia.
      - destruct (decide (n = n0)) as [->|Hneq].
        + rewrite Hn0 in Hn. injection Hn as <-.
          pose proof (count_E_take_le (parts_of line0) p0 p Hpos).
          subst m. fold v0. lia.
        + pose proof (E_seen_take_le (readlines text) (S n0) n ltac:(lia))
            as Hmono.
          fold m in Hmono.
          pose proof (count_E_take (parts_of line0) p0). lia. }
    rewrite (lookup_ge_None_2 _ _ Hgone). now destruct (is_E part).
Qed.

Lemma exhausted_records_keep_tokens_witness :
  exists out line',
    (write_gcode {[ input_file := ln "G1 E1 E2" ++ ln "G1  X0 Y0 E3" ]}
       output_file (Rows [Row 0 0 5]) input_file).1 !! output_file = Some out
    /\ readlines out !! 0 = Some line'
    /\ split (strip line') !! 2 = Some (lit "E2").
Proof.
  pose (fs := ({[ input_file := ln "G1 E1 E2" ++ ln "G1  X0 Y0 E3" ]}
                : gmap string str)).
  assert (Horig : fs !! input_file = Some (ln "G1 E1 E2" ++ ln "G1  X0 Y0 E3"))
    by (vm_compute; reflexivity).
  assert (Hne : output_file <> input_file) by discriminate.
  destruct (exhausted_records_keep_tokens fs output_file (Rows [Row 0 0 5])
              input_file (ln "G1 E1 E2" ++ ln "G1  X0 Y0 E3")
              0 (ln "G1 E1 E2") 2 (<[output_file := []]> fs) 0
              [lit "G1"; lit "E5.00000"]
              Hne Horig eq_refl eq_refl eq_refl eq_refl)
    as (out & Hrun & _ & Hlines).
  destruct (Hlines 0 (ln "G1 E1 E2") eq_refl ltac:(lia))
    as (line' & Hline & _ & Htok).
  destruct (Htok eq_refl) as (_ & _ & Hkeep).
  exists out, line'. fold fs. rewrite Hrun.
  split; [apply lookup_insert_eq|]. split; [exact Hline|].
  apply Hkeep; [reflexivity | right; lia].
Defined.

(** ** The selection session *)

Section Session.

Variable float_of_str : str -> option float.

(** C2, as the code has it. When [float] rejects the text of the ratio,
    the confirmation changes neither the array nor the two lists and keeps
    the pending ranges; but the confirm button was disabled before the
    prompt, so the session is idle: a further click is ignored, and a new
    selection is what enables the button again. *)
Theorem invalid_ratio_rejected (s : session) typed :
  float_of_str typed = None ->
  let s' := confirm_selection float_of_str s typed in
  heap s' = heap s
  /\ gcode_data s' = gcode_data s
  /\ selected_areas s' = selected_areas s
  /\ extrusion_multipliers s' = extrusion_multipliers s
  /\ x_range s' = x_range s
  /\ y_range s' = y_range s
  /\ state_of s' = Idle
  /\ (forall again, handle float_of_str s' (Click again) = s')
  /\ (forall x1 y1 x2 y2,
      state_of (handle float_of_str s' (Select x1 y1 x2 y2)) = RegionPending).
Proof.
  intros Hbad s'. subst s'. unfold confirm_selection, float_.
  rewrite Hbad. cbn. repeat split; reflexivity.
Qed.

End Session.

Lemma invalid_ratio_rejected_witness :
  state_of (confirm_selection py_float
              (on_select (start (Rows [Row 0 0 1])) 0 0 5 5) (lit "abc"))
  = Idle.
Proof.
  exact (proj1 (proj2 (proj2 (proj2 (proj2 (proj2 (proj2
    (invalid_ratio_rejected py_float
       (on_select (start (Rows [Row 0 0 1])) 0 0 5 5) (lit "abc")
       ltac:(vm_compute; reflexivity))))))))).
Defined.

(** C2 as stated fails. After a text that is not a number the session is
    idle, not pending, and the retry is ignored; and a text that parses to
    a value that is not finite is accepted: it is appended and applied. *)
Lemma invalid_ratio_counterexample :
  let s := on_select (start (Rows [Row 0 0 1])) 0 0 5 5 in
  state_of s = RegionPending
  /\ (py_float (lit "abc") = None
      /\ state_of (handle py_float s (Click (lit "abc"))) = Idle
      /\ handle py_float (handle py_float s (Click (lit "abc")))
           (Click (lit "2.0"))
         = handle py_float s (Click (lit "abc")))
  /\ (exists v, py_float (lit "inf") = Some v /\ is_finite v = false
      /\ extrusion_multipliers (handle py_float s (Click (lit "inf"))) = [v]
      /\ length (selected_areas (handle py_float s (Click (lit "inf")))) = 1
      /\ heap (handle py_float s (Click (lit "inf"))) !! 0
         = Some (Rows [Row 0 0 v])).
Proof.
  split; [reflexivity|]. split.
  - repeat split; vm_compute; reflexivity.
  - exists infinity. repeat split; vm_compute; reflexivity.
Qed.

(** ** The round trip at ratio 1.0 *)

(** C9 fails on a file with a retraction line, which has [E] but neither
    [X] nor [Y]: the only record, of the second line, is written on the
    first line, whose deposition [-2] is lost, and the second line keeps
    its token unformatted. *)
Lemma round_trip_misattributes :
  let fs : gmap string str :=
    {[ input_file := ln "G1 E-2 F1800" ++ ln "G1 X0 Y0 E1" ]} in
  parse_gcode py_float fs input_file = Ok (Rows [Row 0 0 1])
  /\ (exists heap',
        adjust_extrusion {[ 0 := Rows [Row 0 0 1] ]} 0
          (neg_infinity, infinity) (neg_infinity, infinity) 1
        = Ok (heap', 0)
        /\ heap' !! 0 = Some (Rows [Row 0 0 1]))
  /\ (write_gcode fs output_file (Rows [Row 0 0 1]) input_file).1
       !! output_file
     = Some (ln "G1 E1.00000 F1800" ++ ln "G1 X0 Y0 E1")
  /\ (main py_float fs [Select (-1) (-1) 1 1; Click (lit "1.0")]).1
       !! output_file
     = Some (ln "G1 E1.00000 F1800" ++ ln "G1 X0 Y0 E1").
Proof.
  cbv zeta. split; [vm_compute; reflexivity|].
  split; [eexists; split; vm_compute; reflexivity|].
  split; vm_compute; reflexivity.
Qed.

(** ** The round trip when the two scans agree *)

Section RoundTrip.

Variable float_of_str : str -> option float.

Lemma has_marker_E_count parts :
  has_marker "E" parts = true <-> 0 < count_E parts.
Proof.
  induction parts as [|q parts IH].
  - unfold has_marker, count_E. cbn. split; [discriminate | lia].
  - rewrite has_marker_cons, count_E_cons, orb_true_iff, IH.
    fold (is_E q). destruct (is_E q); split; intros H; try lia; auto.
Qed.

Lemma scan_part_not_E f q f' :
  is_E q = false ->
  scan_part float_of_str f q = Ok f' -> f'.2 = f.2.
Proof.
  intros HE. destruct f as [[x y] e].
  unfold scan_part, float_, bind. unfold is_E in HE. rewrite HE.
  destruct (startswith q (lit "X")), (startswith q (lit "Y")),
    (float_of_str (drop 1 q)); intros E; try discriminate;
    now injection E as <-.
Qed.

Lemma scan_part_is_E f q f' :
  is_E q = true ->
  scan_part float_of_str f q = Ok f' -> f'.2 = float_of_str (drop 1 q).
Proof.
  intros HE Hs. unfold is_E in HE. change (lit "E") with ["E"%char] in HE.
  assert (Hm : marked q = true).
  { unfold marked. change (lit "E") with ["E"%char].
    rewrite HE. now rewrite !orb_true_r. }
  rewrite (scan_part_marked _ _ _ Hm) in Hs.
  change (lit "X") with ["X"%char] in Hs.
  change (lit "Y") with ["Y"%char] in Hs.
  rewrite (startswith_other q "E" "X"), (startswith_other q "E" "Y") in Hs;
    try assumption; try discriminate.
  destruct (float_of_str (drop 1 q)); [|discriminate].
  now injection Hs as <-.
Qed.

Lemma scan_parts_no_E parts : forall f f',
  count_E parts = 0 ->
  scan_parts float_of_str f parts = Ok f' -> f'.2 = f.2.
Proof.
  induction parts as [|q parts IH]; intros f f' Hc Hs.
  - now injection Hs as <-.
  - rewrite count_E_cons in Hc. cbn [scan_parts] in Hs.
    destruct (scan_part float_of_str f q) as [f1|] eqn:Hq; [|discriminate].
    unfold bind in Hs. destruct (is_E q) eqn:HE; [lia|].
    assert (Hrest : count_E parts = 0) by lia.
    rewrite (IH _ _ Hrest Hs). now apply scan_part_not_E with q.
Qed.

(** With a single [E] token on the line, the deposition read is the number
    of that token. *)
Lemma scan_parts_one_E parts : forall f f' p part,
  count_E parts = 1 ->
  parts !! p = Some part -> is_E part = true ->
  scan_parts float_of_str f parts = Ok f' ->
  f'.2 = float_of_str (drop 1 part).
Proof.
  induction parts as [|q parts IH]; intros f f' p part Hc Hp HE Hs;
    [discriminate|].
  rewrite count_E_cons in Hc. cbn [scan_parts] in Hs.
  destruct (scan_part float_of_str f q) as [f1|] eqn:Hq; [|discriminate].
  unfold bind in Hs. destruct p as [|p]; cbn in Hp.
  - injection Hp as ->. rewrite HE in Hc.
    assert (Hrest : count_E parts = 0) by lia.
    rewrite (scan_parts_no_E _ _ _ Hrest Hs).
    now apply scan_part_is_E with f.
  - destruct (is_E q) eqn:HEq.
    + pose proof (count_E_take_lt _ _ _ Hp HE). lia.
    + assert (Hrest : count_E parts = 1) by lia.
      apply (IH _ _ p part Hrest Hp HE Hs).
Qed.

(** The record of a line of an aligned file, from its only [E] token. *)
Lemma line_record_aligned line f p part :
  tagged line = true ->
  scan_parts float_of_str (None, None, None) (parts_of line) = Ok f ->
  count_E (parts_of line) = 1 ->
  has_marker "X" (parts_of line) = true ->
  has_marker "Y" (parts_of line) = true ->
  parts_of line !! p = Some part -> is_E part = true ->
  exists x y v, float_of_str (drop 1 part) = Some v
    /\ line_record float_of_str line = [Row x y v].
Proof.
  intros Ht Hs Hc HX HY Hp HE.
  pose proof (scan_parts_one_E _ _ _ _ _ Hc Hp HE Hs) as Hv.
  pose proof (scan_parts_fields _ _ _ _ Hs) as (FX & FY & _).
  cbn [fst snd] in FX, FY.
  destruct FX as [_ [x Hx]]; [now right|].
  destruct FY as [_ [y Hy]]; [now right|].
  assert (HmE : marked part = true).
  { unfold marked. unfold is_E in HE. rewrite HE. now rewrite !orb_true_r. }
  destruct (scan_parts_parsed _ _ _ _ part Hs) as [v Hpv];
    [now apply list_elem_of_lookup_2 in Hp | exact HmE |].
  exists x, y, v. split; [exact Hpv|].
  unfold line_record. fold (tagged line). rewrite Ht.
  fold (parts_of line). rewrite Hs.
  destruct f as [[fx fy] fe]. cbn [fst snd] in *. subst. now rewrite Hpv.
Qed.

(** In an aligned file the records kept so far are as many as the [E]
    tokens met so far. *)
Lemma records_before_aligned lines :
  aligned lines ->
  (forall line, line ∈ lines -> tagged line = true ->
   exists f, scan_parts float_of_str (None, None, None) (parts_of line)
             = Ok f) ->
  length (concat (map (line_record float_of_str) lines)) = E_seen lines.
Proof.
  induction lines as [|line lines IH]; intros Hal Hok; [reflexivity|].
  cbn [map concat E_seen]. rewrite length_app, IH.
  - f_equal. destruct (tagged line) eqn:Ht.
    + destruct (Hok line) as [f Hf]; [now left | exact Ht |].
      destruct (line_record_one float_of_str line f Ht Hf) as (Hle & Hone & Hnone).
      destruct (Hal line) as [Hc|(Hc & HX & HY)]; [now left | exact Ht | |].
      * rewrite Hc, Hnone; [reflexivity|].
        destruct (has_marker "E" (parts_of line)) eqn:HE;
          [|now rewrite !andb_false_r].
        apply has_marker_E_count in HE. lia.
      * rewrite Hc. apply Hone.
        assert (HE : has_marker "E" (parts_of line) = true)
          by (apply has_marker_E_count; lia).
        apply has_marker_elem in HX as (px & Hpx & Hsx).
        apply has_marker_elem in HY as (py & Hpy & Hsy).
        apply has_marker_elem in HE as (pe & Hpe & Hse).
        destruct (scan_parts_parsed _ _ _ _ px Hf Hpx) as [vx Hvx];
          [unfold marked; now rewrite Hsx|].
        destruct (scan_parts_parsed _ _ _ _ py Hf Hpy) as [vy Hvy];
          [unfold marked; rewrite Hsy; now rewrite orb_true_r|].
        destruct (scan_parts_parsed _ _ _ _ pe Hf Hpe) as [ve Hve];
          [unfold marked; rewrite Hse; now rewrite !orb_true_r|].
        repeat split; eexists; eexists; eauto.
    + unfold line_record. fold (tagged line). now rewrite Ht.
  - intros l Hl. apply Hal. now right.
  - intros l Hl. apply Hok. now right.
Qed.

(** X12. When every line the rewriter substitutes on is a line the
    extractor kept, extraction followed by the rewrite writes, in place of
    every [E] token of a tagged line, the number of that very token,
    formatted. *)
Lemma round_trip_when_aligned (fs : gmap string str) file_path path text a :
  path <> file_path ->
  fs !! file_path = Some text ->
  parse_gcode float_of_str fs file_path = Ok a ->
  aligned (readlines text) ->
  exists out j,
    write_gcode fs path a file_path = (<[path := out]> fs, Ok j)
    /\ forall n line p part,
       readlines text !! n = Some line -> tagged line = true ->
       parts_of line !! p = Some part -> is_E part = true ->
       exists v line',
         float_of_str (drop 1 part) = Some v
         /\ readlines out !! n = Some line'
         /\ parts_of line' !! p = Some (lit "E" ++ format_5f v).
Proof.
  intros Hne Hfile Hparse Hal.
  do 2 eexists. split; [exact (write_gcode_spec _ _ _ _ _ Hne Hfile)|].
  unfold parse_gcode in Hparse. rewrite Hfile in Hparse.
  destruct (scan_lines float_of_str [] (readlines text)) as [rows|] eqn:Hs;
    [|discriminate].
  injection Hparse as <-. rewrite rows_of_np_array.
  apply scan_lines_ok in Hs as [-> Hok]. cbn [app].
  intros n line p part Hn Ht Hp HE.
  assert (Hin : line ∈ readlines text) by now apply list_elem_of_lookup_2 in Hn.
  destruct (Hok line Hin Ht) as [f Hf].
  assert (Hc : count_E (parts_of line) = 1
               /\ has_marker "X" (parts_of line) = true
               /\ has_marker "Y" (parts_of line) = true).
  { destruct (Hal line Hin Ht) as [Hc|Hc]; [|exact Hc].
    pose proof (count_E_take_lt _ _ _ Hp HE). lia. }
  destruct Hc as (Hc & HX & HY).
  destruct (line_record_aligned line f p part Ht Hf Hc HX HY Hp HE)
    as (x & y & v & Hv & Hrec).
  exists v. eexists. split; [exact Hv|].
  rewrite readlines_written.
  split; [exact (written_lines_lookup _ _ _ _ _ Hn)|].
  rewrite (parts_of_written_line _ _ _ Ht).
  rewrite (written_parts_lookup _ _ _ _ _ Hp).
  unfold written_part. rewrite HE.
  assert (Hbefore : count_E (take p (parts_of line)) = 0)
    by (pose proof (count_E_take_lt _ _ _ Hp HE); lia).
  rewrite Hbefore, Nat.add_0_l, Nat.add_0_r.
  assert (Hsplit : map (line_record float_of_str) (readlines text)
                   = map (line_record float_of_str) (take n (readlines text))
                     ++ line_record float_of_str line
                        :: map (line_record float_of_str)
                             (drop (S n) (readlines text))).
  { rewrite <- (take_drop_middle (readlines text) n line Hn) at 1.
    now rewrite map_app. }
  rewrite Hsplit, concat_app. cbn [concat].
  rewrite <- (records_before_aligned (take n (readlines text))).
  - rewrite lookup_app_r by lia. rewrite Nat.sub_diag, Hrec. reflexivity.
  - intros l Hl. apply Hal. now apply (subseteq_take n (readlines text)).
  - intros l Hl. apply Hok. now apply (subseteq_take n (readlines text)).
Qed.

End RoundTrip.

(** ** Multiplying by 1.0 *)

Lemma Prim2SF_one : Prim2SF 1 = S754_finite false 4503599627370496 (-52).
Proof. vm_compute. reflexivity. Qed.

Lemma shr_1_52_times m :
  SpecFloat.iter_pos shr_1 52
    {| shr_m := Zpos (4503599627370496 * m); shr_r := false; shr_s := false |}
  = {| shr_m := Zpos m; shr_r := false; shr_s := false |}.
Proof. reflexivity. Qed.

Lemma iter_succ_add d n :
  Zpos (Pos.iter Pos.succ d n) = (Zpos d + Zpos n)%Z.
Proof.
  induction n as [|n IH] using Pos.peano_ind.
  - cbn [Pos.iter]. lia.
  - rewrite Pos.iter_succ. lia.
Qed.

Lemma digits2_52_times m :
  Zpos (digits2_pos (4503599627370496 * m)) = (Zpos (digits2_pos m) + 52)%Z.
Proof.
  rewrite <- (iter_succ_add (digits2_pos m) 52). reflexivity.
Qed.

(** Rounding [m * 2^52 * 2^(e - 52)] gives back [m * 2^e]. *)
Lemma binary_round_times_one s m e :
  bounded prec emax m e = true ->
  binary_round_aux prec emax s (Zpos (m * 4503599627370496)) (e + -52)
    loc_Exact
  = S754_finite s m e.
Proof.
  unfold bounded, canonical_mantissa. intros H.
  apply andb_true_iff in H as [Hc He]. apply Z.eqb_eq in Hc.
  rewrite Pos.mul_comm.
  unfold binary_round_aux, shr_fexp.
  unfold Zdigits2 at 1. rewrite digits2_52_times.
  replace (Z.pos (digits2_pos m) + 52 + (e + -52))%Z
    with (Z.pos (digits2_pos m) + e)%Z by lia.
  rewrite Hc.
  replace (e - (e + -52))%Z with 52%Z by lia.
  unfold shr at 1. cbn [shr_record_of_loc]. rewrite shr_1_52_times.
  cbn [shr_m loc_of_shr_record round_nearest_even].
  replace (e + -52 + 52)%Z with e by lia.
  unfold Zdigits2. rewrite Hc, Z.sub_diag.
  cbn [shr shr_record_of_loc shr_m]. now rewrite He.
Qed.

Lemma SF64mul_one x : valid_binary x = true -> SF64mul x (Prim2SF 1) = x.
Proof.
  rewrite Prim2SF_one. destruct x as [s|s| |s m e]; intros Hv.
  - cbn. now destruct s.
  - cbn. now destruct s.
  - reflexivity.
  - unfold SF64mul, SFmul. rewrite (binary_round_times_one _ m e Hv).
    now destruct s.
Qed.

Lemma mul_one (x : float) : PrimFloat.mul x 1 = x.
Proof.
  apply Prim2SF_inj. rewrite mul_spec. apply SF64mul_one, Prim2SF_valid.
Qed.

(** X7. With the ratio 1.0 the transform leaves the array as it was,
    whatever the region and whatever the values, infinite or NaN
    included. *)
Lemma region_transform_ratio_one (heap : gmap loc ndarray) gcode rows
  x_min x_max y_min y_max :
  heap !! gcode = Some (Rows rows) ->
  adjust_extrusion heap gcode (x_min, x_max) (y_min, y_max) 1
  = Ok (<[gcode := Rows rows]> heap, gcode).
Proof.
  intros Hg. rewrite (adjust_extrusion_rows _ _ _ _ _ _ _ _ Hg).
  assert (Hsame : zip_with (imul_e 1) rows
                    (map (in_area x_min x_max y_min y_max) rows) = rows).
  { clear Hg. induction rows as [|r rows IH]; [reflexivity|].
    cbn [map zip_with]. rewrite IH. f_equal.
    unfold imul_e. destruct (in_area x_min x_max y_min y_max r); [|reflexivity].
    rewrite mul_one. now destruct r. }
  now rewrite Hsame.
Qed.

(** Two successive multiplications round twice: the value stored after
    [r1] and then [r2] need not be the deposition times the product of the
    ratios. Here with 0.1, 0.2 and 0.3. *)
Lemma sequential_product_not_reassociated :
  PrimFloat.mul (PrimFloat.mul 0x1.999999999999ap-4 0x1.999999999999ap-3)
    0x1.3333333333333p-2
  <> PrimFloat.mul 0x1.999999999999ap-4
       (PrimFloat.mul 0x1.999999999999ap-3 0x1.3333333333333p-2).
Proof.
  intros H. apply (f_equal Prim2SF) in H. vm_compute in H. discriminate H.
Qed.

(** * Further properties of the code *)

(** ** The session across events *)

Section Events.

Variable float_of_str : str -> option float.

(** What one event does to a session whose array has shape [(N, 3)]: it
    leaves the array and the two lists alone, or appends the pending
    region and a ratio and applies them. *)
Lemma handle_cases (s : session) ev rows :
  heap s !! gcode_data s = Some (Rows rows) ->
  (heap (handle float_of_str s ev) = heap s
   /\ gcode_data (handle float_of_str s ev) = gcode_data s
   /\ selected_areas (handle float_of_str s ev) = selected_areas s
   /\ extrusion_multipliers (handle float_of_str s ev)
      = extrusion_multipliers s)
  \/ (exists xr yr ratio,
        selected_areas (handle float_of_str s ev)
        = selected_areas s ++ [(xr, yr)]
        /\ extrusion_multipliers (handle float_of_str s ev)
           = extrusion_multipliers s ++ [ratio]
        /\ gcode_data (handle float_of_str s ev) = gcode_data s
        /\ heap (handle float_of_str s ev)
           = <[gcode_data s := Rows (apply_op rows (xr, yr, ratio))]> (heap s)).
Proof.
  intros Hrows. destruct ev as [x1 y1 x2 y2|typed]; cbn [handle].
  - left. repeat split; reflexivity.
  - destruct (confirm_active s); [|left; repeat split; reflexivity].
    unfold confirm_selection, float_.
    destruct (float_of_str typed) as [ratio|];
      [|left; repeat split; reflexivity].
    destruct (x_range s) as [[x_min x_max]|];
      [|left; repeat split; reflexivity].
    destruct (y_range s) as [[y_min y_max]|];
      [|left; repeat split; reflexivity].
    rewrite (adjust_extrusion_rows _ _ _ _ _ _ _ _ Hrows).
    right. exists (x_min, x_max), (y_min, y_max), ratio.
    repeat split; reflexivity.
Qed.

Lemma zip_snoc {A B} (l : list A) (k : list B) a b :
  length l = length k -> zip (l ++ [a]) (k ++ [b]) = zip l k ++ [(a, b)].
Proof.
  revert k. induction l as [|x l IH]; intros [|y k] Hlen;
    try discriminate Hlen; [reflexivity|].
  cbn. f_equal. apply IH. now injection Hlen.
Qed.

Lemma replay_snoc rows areas multipliers xr yr ratio :
  length areas = length multipliers ->
  replay rows (areas ++ [(xr, yr)]) (multipliers ++ [ratio])
  = apply_op (replay rows areas multipliers) (xr, yr, ratio).
Proof.
  intros Hlen. unfold replay. rewrite (zip_snoc _ _ _ _ Hlen).
  now rewrite fold_left_app.
Qed.

Lemma apply_op_length rows op : length (apply_op rows op) = length rows.
Proof.
  destruct op as [[[x_min x_max] [y_min y_max]] ratio].
  apply zip_with_mask_length.
Qed.

Lemma apply_op_lookup rows x_min x_max y_min y_max ratio n r :
  rows !! n = Some r ->
  apply_op rows ((x_min, x_max), (y_min, y_max), ratio) !! n
  = Some (imul_e ratio r (in_area x_min x_max y_min y_max r)).
Proof. apply zip_with_mask_lookup. Qed.

Lemma apply_op_positions rows op :
  map col_x (apply_op rows op) = map col_x rows
  /\ map col_y (apply_op rows op) = map col_y rows.
Proof.
  destruct op as [[[x_min x_max] [y_min y_max]] ratio]. unfold apply_op.
  induction rows as [|r rows [IHx IHy]]; [now split|].
  cbn [map zip_with]. rewrite IHx, IHy.
  destruct (imul_e_xy ratio r (in_area x_min x_max y_min y_max r)) as [-> ->].
  now split.
Qed.

(** X1. The two lists of the log always grow together: whatever events
    arrive, [selected_areas] and [extrusion_multipliers] keep the same
    length if they had it, so that pairing them with [zip] drops nothing. *)
Theorem log_lists_same_length (s : session) events :
  length (selected_areas s) = length (extrusion_multipliers s) ->
  length (selected_areas (fold_left (handle float_of_str) events s))
  = length (extrusion_multipliers (fold_left (handle float_of_str) events s)).
Proof.
  revert s. induction events as [|ev events IH]; intros s Hlen; [exact Hlen|].
  cbn [fold_left]. apply IH.
  destruct ev as [x1 y1 x2 y2|typed]; cbn [handle]; [exact Hlen|].
  destruct (confirm_active s); [|exact Hlen].
  unfold confirm_selection, float_.
  destruct (float_of_str typed) as [ratio|]; [|exact Hlen].
  destruct (x_range s) as [xr|]; [|exact Hlen].
  destruct (y_range s) as [yr|]; [|exact Hlen].
  destruct (adjust_extrusion (heap s) (gcode_data s) xr yr ratio) as [[h g]|];
    cbn; rewrite !length_app, Hlen; reflexivity.
Qed.

(** X2. The log tells the whole story of the data: after any events, the
    array of the session is the array that was extracted with the logged
    operations applied to it in order. *)
Theorem session_replays_log rows events :
  let s := fold_left (handle float_of_str) events (start (Rows rows)) in
  heap s !! gcode_data s
  = Some (Rows (replay rows (selected_areas s) (extrusion_multipliers s))).
Proof.
  cbv zeta.
  assert (Hinv : forall events s,
    length (selected_areas s) = length (extrusion_multipliers s) ->
    heap s !! gcode_data s
    = Some (Rows (replay rows (selected_areas s) (extrusion_multipliers s))) ->
    let s' := fold_left (handle float_of_str) events s in
    heap s' !! gcode_data s'
    = Some (Rows (replay rows (selected_areas s')
                    (extrusion_multipliers s')))).
  { clear events. induction events as [|ev events IH]; intros s Hlen Hs;
      [exact Hs|].
    cbn [fold_left]. apply IH.
    - destruct (handle_cases s ev _ Hs)
        as [(_ & _ & -> & ->)|(xr & yr & ratio & -> & -> & _)];
        [exact Hlen | rewrite !length_app, Hlen; reflexivity].
    - destruct (handle_cases s ev _ Hs)
        as [(-> & -> & -> & ->)|(xr & yr & ratio & -> & -> & -> & ->)];
        [exact Hs|].
      rewrite lookup_insert_eq. now rewrite replay_snoc. }
  apply Hinv; [reflexivity|]. apply lookup_insert_eq.
Qed.

(** X3. No event adds, removes or moves a record: after any events the
    array still has the records it was extracted with, in the same order
    and at the same positions [x] and [y]; only depositions can differ. *)
Theorem session_keeps_positions rows events :
  let s := fold_left (handle float_of_str) events (start (Rows rows)) in
  exists rows',
    heap s !! gcode_data s = Some (Rows rows')
    /\ length rows' = length rows
    /\ map col_x rows' = map col_x rows
    /\ map col_y rows' = map col_y rows.
Proof.
  cbv zeta.
  assert (Hinv : forall events s rows1,
    heap s !! gcode_data s = Some (Rows rows1) ->
    exists rows',
      heap (fold_left (handle float_of_str) events s)
        !! gcode_data (fold_left (handle float_of_str) events s)
      = Some (Rows rows')
      /\ length rows' = length rows1
      /\ map col_x rows' = map col_x rows1
      /\ map col_y rows' = map col_y rows1).
  { clear events. induction events as [|ev events IH]; intros s rows1 Hs.
    - exists rows1. now repeat split.
    - cbn [fold_left].
      destruct (handle_cases s ev _ Hs)
        as [(Hh & Hg & _)|(xr & yr & ratio & _ & _ & Hg & Hh)].
      + apply IH. now rewrite Hh, Hg.
      + destruct (IH (handle float_of_str s ev)
                    (apply_op rows1 (xr, yr, ratio)))
          as (rows' & Hat & Hlen & Hx & Hy).
        { rewrite Hh, Hg. apply lookup_insert_eq. }
        exists rows'. split; [exact Hat|].
        rewrite Hlen, Hx, Hy, apply_op_length.
        destruct (apply_op_positions rows1 (xr, yr, ratio)) as [-> ->].
        now repeat split. }
  apply Hinv. apply lookup_insert_eq.
Qed.

(** X4. One selection gives one confirmation: after a click on the confirm
    button, whether its ratio was accepted or not, a second click without a
    new selection changes nothing. *)
Theorem second_click_ignored (s : session) first second :
  handle float_of_str (handle float_of_str s (Click first)) (Click second)
  = handle float_of_str s (Click first).
Proof.
  cbn [handle]. destruct (confirm_active s) eqn:Hactive.
  - assert (Hoff : confirm_active (confirm_selection float_of_str s first)
                   = false).
    { unfold confirm_selection.
      destruct (float_ float_of_str first) as [ratio|]; [|reflexivity].
      destruct (x_range s) as [xr|]; [|reflexivity].
      destruct (y_range s) as [yr|]; [|reflexivity].
      now destruct (adjust_extrusion (heap s) (gcode_data s) xr yr ratio)
        as [[h g]|]. }
    now rewrite Hoff.
  - now rewrite Hactive.
Qed.

End Events.

Lemma log_lists_same_length_witness :
  length (selected_areas
            (fold_left (handle py_float)
               [Select 0 0 5 5; Click (lit "2"); Click (lit "3");
                Select 1 1 2 2; Click (lit "x"); Select 0 0 1 1;
                Click (lit "0.5")]
               (start (Rows [Row 0 0 1]))))
  = length (extrusion_multipliers
              (fold_left (handle py_float)
                 [Select 0 0 5 5; Click (lit "2"); Click (lit "3");
                  Select 1 1 2 2; Click (lit "x"); Select 0 0 1 1;
                  Click (lit "0.5")]
                 (start (Rows [Row 0 0 1])))).
Proof.
  apply (log_lists_same_length py_float (start (Rows [Row 0 0 1]))).
  reflexivity.
Defined.

(** ** The selected rectangle *)

Lemma SFcompare_Eq_left a b c :
  SFcompare a b = Some Eq -> SFcompare a c = SFcompare b c.
Proof.
  destruct a as [sa|sa| |sa ma ea], b as [sb|sb| |sb mb eb]; cbn;
    intros H; try discriminate H;
    try (destruct sa; discriminate H);
    try (destruct sb; discriminate H).
  - now destruct c.
  - destruct sa, sb; try discriminate H; reflexivity.
  - assert (E : ea = eb /\ ma = mb /\ sa = sb).
    { destruct sa, sb; try discriminate H;
        destruct (ea ?= eb)%Z eqn:He; try discriminate H;
        apply Z.compare_eq in He;
        destruct (Pos.compare_cont Eq ma mb) eqn:Hm; try discriminate H;
        apply Pos.compare_eq in Hm; auto. }
    destruct E as (-> & -> & ->). reflexivity.
Qed.

Lemma SFcompare_Eq_right a b c :
  SFcompare a b = Some Eq -> SFcompare c a = SFcompare c b.
Proof.
  intros H. rewrite (SFcompare_swap a c), (SFcompare_swap b c).
  now rewrite (SFcompare_Eq_left a b c H).
Qed.

Lemma is_number_not_nan x : is_number x = true -> Prim2SF x <> S754_nan.
Proof.
  unfold is_number. rewrite FloatAxioms.eqb_spec. intros H E.
  rewrite E in H. discriminate H.
Qed.

Lemma SFcompare_numbers a b :
  a <> S754_nan -> b <> S754_nan -> exists c, SFcompare a b = Some c.
Proof.
  intros Ha Hb.
  destruct a as [sa|sa| |sa ma ea], b as [sb|sb| |sb mb eb]; cbn;
    try contradiction; eauto.
Qed.

(** The bounds that [on_select] computes from two numbers, in either
    order, let the same values through. *)
Lemma span_swap a b v :
  is_number a = true -> is_number b = true ->
  PrimFloat.leb (py_min a b) v && PrimFloat.leb v (py_max a b)
  = PrimFloat.leb (py_min b a) v && PrimFloat.leb v (py_max b a).
Proof.
  intros Ha Hb. apply is_number_not_nan in Ha, Hb.
  destruct (SFcompare_numbers _ _ Ha Hb) as [c Hc].
  unfold py_min, py_max. rewrite !FloatAxioms.ltb_spec. unfold SFltb.
  rewrite (SFcompare_swap (Prim2SF a) (Prim2SF b)), Hc.
  destruct c; cbn [option_map CompOpp]; try reflexivity.
  rewrite !FloatAxioms.leb_spec. unfold SFleb.
  rewrite (SFcompare_Eq_left _ _ (Prim2SF v) Hc).
  now rewrite (SFcompare_Eq_right _ _ (Prim2SF v) Hc).
Qed.

Lemma span_ordered a b :
  is_number a = true -> is_number b = true ->
  PrimFloat.leb (py_min a b) (py_max a b) = true.
Proof.
  intros Ha Hb. apply is_number_not_nan in Ha, Hb.
  destruct (SFcompare_numbers _ _ Ha Hb) as [c Hc].
  unfold py_min, py_max. rewrite !FloatAxioms.ltb_spec. unfold SFltb.
  rewrite (SFcompare_swap (Prim2SF a) (Prim2SF b)), Hc.
  destruct c; cbn [option_map CompOpp]; rewrite FloatAxioms.leb_spec;
    unfold SFleb.
  - rewrite (SFcompare_Eq_left _ _ (Prim2SF a) Hc).
    rewrite (SFcompare_swap (Prim2SF a) (Prim2SF b)), Hc. reflexivity.
  - now rewrite Hc.
  - rewrite (SFcompare_swap (Prim2SF a) (Prim2SF b)), Hc. reflexivity.
Qed.

Lemma in_area_spans x_min x_max y_min y_max r :
  in_area x_min x_max y_min y_max r
  = (PrimFloat.leb x_min (col_x r) && PrimFloat.leb (col_x r) x_max)
    && (PrimFloat.leb y_min (col_y r) && PrimFloat.leb (col_y r) y_max).
Proof. unfold in_area, geb. now rewrite !andb_assoc. Qed.

(** X5. The direction of the drag does not matter: for coordinates that
    are numbers, a rectangle drawn from either end of either diagonal
    selects the same records. *)
Theorem selection_direction_irrelevant (s : session) x1 y1 x2 y2 r :
  is_number x1 = true -> is_number y1 = true ->
  is_number x2 = true -> is_number y2 = true ->
  selected (on_select s x2 y2 x1 y1) r = selected (on_select s x1 y1 x2 y2) r
  /\ selected (on_select s x1 y2 x2 y1) r
     = selected (on_select s x1 y1 x2 y2) r
  /\ selected (on_select s x2 y1 x1 y2) r
     = selected (on_select s x1 y1 x2 y2) r.
Proof.
  intros Hx1 Hy1 Hx2 Hy2. unfold selected, on_select.
  cbn [x_range y_range]. rewrite !in_area_spans.
  rewrite (span_swap x2 x1 (col_x r) Hx2 Hx1).
  rewrite (span_swap y2 y1 (col_y r) Hy2 Hy1).
  repeat split; reflexivity.
Qed.

Lemma selection_direction_irrelevant_witness :
  selected (on_select (start (Rows [Row 1 2 3])) 5 5 0 0) (Row 1 2 3)
  = selected (on_select (start (Rows [Row 1 2 3])) 0 0 5 5) (Row 1 2 3).
Proof.
  exact (proj1 (selection_direction_irrelevant
                  (start (Rows [Row 1 2 3])) 0 0 5 5 (Row 1 2 3)
                  eq_refl eq_refl eq_refl eq_refl)).
Defined.

(** X6. A selection made with coordinates that are numbers always leaves
    ranges with the lower bound first: [x_min <= x_max] and
    [y_min <= y_max], whichever way the rectangle was dragged. *)
Theorem selection_is_ordered (s : session) x1 y1 x2 y2 :
  is_number x1 = true -> is_number y1 = true ->
  is_number x2 = true -> is_number y2 = true ->
  exists x_min x_max y_min y_max,
    x_range (on_select s x1 y1 x2 y2) = Some (x_min, x_max)
    /\ y_range (on_select s x1 y1 x2 y2) = Some (y_min, y_max)
    /\ PrimFloat.leb x_min x_max = true
    /\ PrimFloat.leb y_min y_max = true.
Proof.
  intros Hx1 Hy1 Hx2 Hy2.
  exists (py_min x1 x2), (py_max x1 x2), (py_min y1 y2), (py_max y1 y2).
  split; [reflexivity|]. split; [reflexivity|].
  split; now apply span_ordered.
Qed.

Lemma selection_is_ordered_witness :
  exists x_min x_max y_min y_max,
    x_range (on_select (start Flat0) 7 1 2 9) = Some (x_min, x_max)
    /\ y_range (on_select (start Flat0) 7 1 2 9) = Some (y_min, y_max)
    /\ PrimFloat.leb x_min x_max = true
    /\ PrimFloat.leb y_min y_max = true.
Proof.
  exact (selection_is_ordered (start Flat0) 7 1 2 9
           eq_refl eq_refl eq_refl eq_refl).
Defined.

(** ** The transform on its own *)

Lemma region_transform_ratio_one_witness :
  adjust_extrusion {[ 0 := Rows [Row 0 0 0.5; Row 9 9 infinity] ]} 0
    (0, 5)%float (0, 5)%float 1
  = Ok (<[0 := Rows [Row 0 0 0.5; Row 9 9 infinity]]>
          {[ 0 := Rows [Row 0 0 0.5; Row 9 9 infinity] ]}, 0).
Proof.
  apply (region_transform_ratio_one
           ({[ 0 := Rows [Row 0 0 0.5; Row 9 9 infinity] ]}
             : gmap loc ndarray) 0).
  vm_compute; reflexivity.
Defined.

Lemma apply_op_cons r rows x_min x_max y_min y_max ratio :
  apply_op (r :: rows) ((x_min, x_max), (y_min, y_max), ratio)
  = imul_e ratio r (in_area x_min x_max y_min y_max r)
    :: apply_op rows ((x_min, x_max), (y_min, y_max), ratio).
Proof. reflexivity. Qed.

(** Two operations that have no row in common can be applied in either
    order. *)
Lemma apply_op_commute rows xa1 xa2 ya1 ya2 ra xb1 xb2 yb1 yb2 rb :
  Forall (fun r => in_area xa1 xa2 ya1 ya2 r && in_area xb1 xb2 yb1 yb2 r
                   = false) rows ->
  apply_op (apply_op rows ((xa1, xa2), (ya1, ya2), ra))
    ((xb1, xb2), (yb1, yb2), rb)
  = apply_op (apply_op rows ((xb1, xb2), (yb1, yb2), rb))
      ((xa1, xa2), (ya1, ya2), ra).
Proof.
  induction 1 as [|r rows Hr _ IH]; [reflexivity|].
  rewrite !apply_op_cons, IH, !in_area_imul_e. f_equal.
  destruct (in_area xa1 xa2 ya1 ya2 r), (in_area xb1 xb2 yb1 yb2 r);
    try discriminate Hr; reflexivity.
Qed.

(** X8. Corrections of regions that share no record commute: applied in
    either order they leave the same array, bit for bit. *)
Theorem disjoint_regions_commute (heap : gmap loc ndarray) gcode rows
  xa1 xa2 ya1 ya2 ra xb1 xb2 yb1 yb2 rb :
  heap !! gcode = Some (Rows rows) ->
  (forall r, r ∈ rows ->
   in_area xa1 xa2 ya1 ya2 r && in_area xb1 xb2 yb1 yb2 r = false) ->
  exists heap_a heap_ab heap_b heap_ba,
    adjust_extrusion heap gcode (xa1, xa2) (ya1, ya2) ra = Ok (heap_a, gcode)
    /\ adjust_extrusion heap_a gcode (xb1, xb2) (yb1, yb2) rb
       = Ok (heap_ab, gcode)
    /\ adjust_extrusion heap gcode (xb1, xb2) (yb1, yb2) rb
       = Ok (heap_b, gcode)
    /\ adjust_extrusion heap_b gcode (xa1, xa2) (ya1, ya2) ra
       = Ok (heap_ba, gcode)
    /\ heap_ab = heap_ba.
Proof.
  intros Hg Hdisjoint. do 4 eexists.
  split; [exact (adjust_extrusion_rows _ _ _ _ _ _ _ _ Hg)|].
  split; [apply adjust_extrusion_rows, lookup_insert_eq|].
  split; [exact (adjust_extrusion_rows _ _ _ _ _ _ _ _ Hg)|].
  split; [apply adjust_extrusion_rows, lookup_insert_eq|].
  rewrite !insert_insert_eq. do 2 f_equal.
  apply (apply_op_commute rows xa1 xa2 ya1 ya2 ra xb1 xb2 yb1 yb2 rb).
  now apply Forall_forall.
Qed.

Lemma disjoint_regions_commute_witness :
  exists heap_a heap_ab heap_b heap_ba,
    adjust_extrusion {[ 0 := Rows [Row 1 1 0.5; Row 8 8 0.25] ]} 0
      (0, 5)%float (0, 5)%float 3 = Ok (heap_a, 0)
    /\ adjust_extrusion heap_a 0 (6, 9)%float (6, 9)%float 0.5
       = Ok (heap_ab, 0)
    /\ adjust_extrusion {[ 0 := Rows [Row 1 1 0.5; Row 8 8 0.25] ]} 0
         (6, 9)%float (6, 9)%float 0.5 = Ok (heap_b, 0)
    /\ adjust_extrusion heap_b 0 (0, 5)%float (0, 5)%float 3
       = Ok (heap_ba, 0)
    /\ heap_ab = heap_ba.
Proof.
  apply (disjoint_regions_commute
           ({[ 0 := Rows [Row 1 1 0.5; Row 8 8 0.25] ]} : gmap loc ndarray)
           0 [Row 1 1 0.5; Row 8 8 0.25]).
  - vm_compute; reflexivity.
  - intros r Hr. apply list_elem_of_In in Hr.
    destruct Hr as [<-|[<-|[]]]; vm_compute; reflexivity.
Defined.

(** ** The extractor on its own *)

Section Extraction.

Variable float_of_str : str -> option float.

Lemma scan_line_untagged acc line :
  tagged line = false -> scan_line float_of_str acc line = Ok acc.
Proof. unfold scan_line, tagged. now intros ->. Qed.

Lemma scan_lines_filter lines : forall acc,
  scan_lines float_of_str acc lines
  = scan_lines float_of_str acc (List.filter tagged lines).
Proof.
  induction lines as [|line lines IH]; intros acc; [reflexivity|].
  cbn [List.filter]. destruct (tagged line) eqn:Ht.
  - cbn [scan_lines].
    destruct (scan_line float_of_str acc line) as [acc'|e]; [|reflexivity].
    unfold bind. apply IH.
  - cbn [scan_lines]. rewrite (scan_line_untagged _ _ Ht). unfold bind.
    apply IH.
Qed.

(** X9. Lines without [G1] are never read for numbers: over two sequences
    of lines with the same tagged lines in the same order, the loop of
    [parse_gcode] gives the same result, be it the list of records or the
    exception. *)
Theorem untagged_lines_not_parsed (lines1 lines2 : list str) acc :
  List.filter (fun line => contains line G1) lines1
  = List.filter (fun line => contains line G1) lines2 ->
  scan_lines float_of_str acc lines1 = scan_lines float_of_str acc lines2.
Proof.
  intros Hsame.
  rewrite (scan_lines_filter lines1), (scan_lines_filter lines2).
  unfold tagged. now rewrite Hsame.
Qed.

Lemma scan_parts_app l1 l2 : forall f,
  scan_parts float_of_str f (l1 ++ l2)
  = let* f1 := scan_parts float_of_str f l1 in scan_parts float_of_str f1 l2.
Proof.
  induction l1 as [|q l1 IH]; intros f; [reflexivity|].
  cbn [app scan_parts].
  destruct (scan_part float_of_str f q) as [f1|e]; [|reflexivity].
  unfold bind at 1 3. apply IH.
Qed.

(** X10. When a line has several [E] tokens, the record takes the
    deposition of the last one. *)
Theorem last_E_token_wins line before part after r :
  contains line G1 = true ->
  split (strip line) = before ++ part :: after ->
  startswith part (lit "E") = true ->
  count_E after = 0 ->
  r ∈ line_record float_of_str line ->
  float_of_str (drop 1 part) = Some (col_e r).
Proof.
  intros Ht Hparts HE Hlast Hr. unfold line_record in Hr.
  rewrite Ht, Hparts, scan_parts_app in Hr.
  destruct (scan_parts float_of_str (None, None, None) before) as [f1|];
    [|inversion Hr].
  unfold bind at 1 in Hr. cbn [scan_parts] in Hr.
  destruct (scan_part float_of_str f1 part) as [f2|] eqn:Hpart;
    [|inversion Hr].
  unfold bind in Hr.
  destruct (scan_parts float_of_str f2 after) as [f3|] eqn:Hafter;
    [|inversion Hr].
  pose proof (scan_parts_no_E _ _ _ _ Hlast Hafter) as H3.
  pose proof (scan_part_is_E _ _ _ _ HE Hpart) as H2.
  destruct f3 as [[[x|] [y|]] [e|]]; try (inversion Hr; fail).
  apply list_elem_of_singleton in Hr. subst r. cbn [col_e].
  cbn [snd] in H3. now rewrite <- H2, <- H3.
Qed.

Lemma line_record_bound line :
  length (line_record float_of_str line)
  <= if tagged line then count_E (parts_of line) else 0.
Proof.
  unfold line_record. fold (tagged line). fold (parts_of line).
  destruct (tagged line); [|reflexivity].
  destruct (scan_parts float_of_str (None, None, None) (parts_of line))
    as [[[[x|] [y|]] [e|]]|] eqn:Hs; cbn [length]; try lia.
  pose proof (scan_parts_fields _ _ _ _ Hs) as (_ & _ & HE).
  cbn [fst snd] in HE.
  destruct HE as [[HE|HE] _]; [eauto | destruct HE; discriminate |].
  apply has_marker_E_count in HE. lia.
Qed.

Lemma records_bound lines :
  length (concat (map (line_record float_of_str) lines)) <= E_seen lines.
Proof.
  induction lines as [|line lines IH]; [reflexivity|].
  cbn [map concat E_seen]. rewrite length_app.
  pose proof (line_record_bound line). lia.
Qed.

Lemma len_np_array l : len (np_array l) = length l.
Proof. now destruct l. Qed.

(** X11. Every extracted record is used by the rewrite of the same file:
    the cursor ends exactly at the number of records, since each record
    came from a tagged line with an [E] token. *)
Theorem all_records_written (fs : gmap string str) file_path path a text :
  path <> file_path ->
  fs !! file_path = Some text ->
  parse_gcode float_of_str fs file_path = Ok a ->
  (write_gcode fs path a file_path).2 = Ok (len a).
Proof.
  intros Hne Hfile Hparse.
  rewrite (write_gcode_spec _ _ _ _ _ Hne Hfile). cbn [snd]. f_equal.
  unfold parse_gcode in Hparse. rewrite Hfile in Hparse.
  destruct (scan_lines float_of_str [] (readlines text)) as [rows|] eqn:Hs;
    [|discriminate].
  injection Hparse as <-. rewrite len_np_array.
  apply scan_lines_ok in Hs as [-> _]. cbn [app].
  pose proof (records_bound (readlines text)). lia.
Qed.

(** ** The script as a whole *)

(** X13. The script writes to [output.gcode] and to nothing else: every
    other file, the input included, is left as it was; when the script
    raises, no file at all is changed; when it returns, the output has as
    many lines as were read from the input, where CR LF and a CR alone end
    a line as LF does. *)
Theorem main_touches_only_output (fs : gmap string str) events :
  (forall path, path <> output_file ->
   (main float_of_str fs events).1 !! path = fs !! path)
  /\ (forall e, (main float_of_str fs events).2 = Raise e ->
      (main float_of_str fs events).1 = fs)
  /\ (forall j, (main float_of_str fs events).2 = Ok j ->
      exists text out,
        fs !! input_file = Some text
        /\ (main float_of_str fs events).1 !! output_file = Some out
        /\ length (readlines out) = length (readlines text)).
Proof.
  unfold main.
  destruct (parse_gcode float_of_str fs input_file) as [[|rows]|e0] eqn:Hparse;
    cbn [fst snd]; try (repeat split; intros; try discriminate; reflexivity).
  destruct (heap (fold_left (handle float_of_str) events (start (Rows rows)))
              !! gcode_data (fold_left (handle float_of_str) events
                               (start (Rows rows)))) as [a'|];
    cbn [fst snd]; try (repeat split; intros; try discriminate; reflexivity).
  unfold parse_gcode in Hparse.
  destruct (fs !! input_file) as [text|] eqn:Hfile; [|discriminate].
  assert (Hne : output_file <> input_file) by discriminate.
  rewrite (write_gcode_spec _ _ _ _ _ Hne Hfile). cbn [fst snd].
  split; [|split].
  - intros path Hpath. now apply lookup_insert_ne.
  - discriminate.
  - intros j _. exists text. eexists.
    split; [reflexivity|]. split; [apply lookup_insert_eq|].
    rewrite readlines_written. apply written_lines_length.
Qed.

(** X14. A file from which no record is extracted stops the script: the
    array then has shape [(0,)], plotting its columns raises [IndexError]
    before the window opens, and no output file is written. *)
Theorem main_without_records (fs : gmap string str) events a :
  parse_gcode float_of_str fs input_file = Ok a ->
  len a = 0 ->
  scatter_data a = Raise IndexError
  /\ main float_of_str fs events = (fs, Raise IndexError).
Proof.
  intros Hparse Hlen.
  assert (Hflat : a = Flat0).
  { unfold parse_gcode in Hparse.
    destruct (fs !! input_file) as [text|]; [|discriminate].
    destruct (scan_lines float_of_str [] (readlines text)) as [rows|];
      [|discriminate].
    injection Hparse as <-. rewrite len_np_array in Hlen.
    now destruct rows. }
  subst a. split; [reflexivity|]. unfold main. now rewrite Hparse.
Qed.

End Extraction.

Lemma untagged_lines_not_parsed_witness :
  scan_lines py_float []
    [ln "; Xabc"; ln "G1 X1 Y2 E3"; lit "M104" ++ [LF]]
  = scan_lines py_float [] [ln "G1 X1 Y2 E3"].
Proof.
  apply (untagged_lines_not_parsed py_float
           [ln "; Xabc"; ln "G1 X1 Y2 E3"; lit "M104" ++ [LF]]
           [ln "G1 X1 Y2 E3"] []).
  vm_compute; reflexivity.
Defined.

Lemma last_E_token_wins_witness :
  py_float (drop 1 (lit "E2")) = Some 2%float.
Proof.
  apply (last_E_token_wins py_float (ln "G1 X0 Y0 E1 E2")
           [lit "G1"; lit "X0"; lit "Y0"; lit "E1"] (lit "E2") []
           (Row 0 0 2)).
  - vm_compute; reflexivity.
  - vm_compute; reflexivity.
  - vm_compute; reflexivity.
  - reflexivity.
  - apply list_elem_of_In. vm_compute. auto.
Defined.

Lemma all_records_written_witness :
  (write_gcode {[ input_file := ln "G1 E-2" ++ ln "G1 X0 Y0 E1" ]}
     output_file (Rows [Row 0 0 1]) input_file).2 = Ok 1.
Proof.
  apply (all_records_written py_float
           ({[ input_file := ln "G1 E-2" ++ ln "G1 X0 Y0 E1" ]}
             : gmap string str) input_file output_file (Rows [Row 0 0 1])
           (ln "G1 E-2" ++ ln "G1 X0 Y0 E1")).
  - discriminate.
  - vm_compute; reflexivity.
  - vm_compute; reflexivity.
Defined.

Lemma main_without_records_witness :
  scatter_data Flat0 = Raise IndexError
  /\ main py_float {[ input_file := ln "G1 E-2 F1800" ++ ln "M104 S200" ]} []
     = ({[ input_file := ln "G1 E-2 F1800" ++ ln "M104 S200" ]},
        Raise IndexError).
Proof.
  apply (main_without_records py_float
           ({[ input_file := ln "G1 E-2 F1800" ++ ln "M104 S200" ]}
             : gmap string str) [] Flat0).
  - vm_compute; reflexivity.
  - reflexivity.
Defined.

Lemma round_trip_when_aligned_witness :
  exists out line',
    (write_gcode
       {[ input_file := ln "G1 X0 Y0 E1" ++ ln "M104 S200"
                        ++ ln "G1 X1 Y1 E2.5" ]}
       output_file (Rows [Row 0 0 1; Row 1 1 2.5]) input_file).1
      !! output_file = Some out
    /\ readlines out !! 2 = Some line'
    /\ parts_of line' !! 3 = Some (lit "E2.50000").
Proof.
  pose (text := ln "G1 X0 Y0 E1" ++ ln "M104 S200" ++ ln "G1 X1 Y1 E2.5").
  assert (Hne : output_file <> input_file) by discriminate.
  assert (Hfile : ({[ input_file := text ]} : gmap string str) !! input_file
                  = Some text) by (vm_compute; reflexivity).
  assert (Hparse : parse_gcode py_float {[ input_file := text ]} input_file
                   = Ok (Rows [Row 0 0 1; Row 1 1 2.5]))
    by (vm_compute; reflexivity).
  assert (Hal : aligned (readlines text)).
  { intros line Hin _. apply list_elem_of_In in Hin. vm_compute in Hin.
    destruct Hin as [<-|[<-|[<-|[]]]]; vm_compute; auto. }
  destruct (round_trip_when_aligned py_float _ _ _ _ _ Hne Hfile Hparse Hal)
    as (out & j & Hrun & Hlines).
  destruct (Hlines 2 (ln "G1 X1 Y1 E2.5") 3 (lit "E2.5")
              eq_refl eq_refl eq_refl eq_refl)
    as (v & line' & Hv & Hline & Hpart).
  exists out, line'. fold text. rewrite Hrun.
  split; [apply lookup_insert_eq|]. split; [exact Hline|].
  vm_compute in Hv. injection Hv as <-. exact Hpart.
Defined.

(** ** Success of the extraction *)

Section Success.

Variable float_of_str : str -> option float.

Lemma scan_parts_succeeds parts : forall f,
  (forall part, part ∈ parts -> marked part = true ->
   is_Some (float_of_str (drop 1 part))) ->
  exists f', scan_parts float_of_str f parts = Ok f'.
Proof.
  induction parts as [|q parts IH]; intros f Hok; [now exists f|].
  cbn [scan_parts]. destruct (marked q) eqn:Hq.
  - rewrite (scan_part_marked _ _ _ Hq).
    destruct (Hok q) as [v Hv]; [now left | exact Hq |].
    rewrite Hv. unfold bind. apply IH.
    intros part Hin. apply Hok. now right.
  - rewrite (scan_part_unmarked _ _ _ Hq). unfold bind. apply IH.
    intros part Hin. apply Hok. now right.
Qed.

(** X15. The loop of [parse_gcode] goes through the lines it is given
    whenever every token of a tagged line that starts with [X], [Y] or [E]
    has a number as its remainder: no other token and no other line is
    converted, so none of them can make the loop raise. *)
Theorem extraction_succeeds (lines : list str) :
  (forall line part,
     line ∈ lines -> contains line G1 = true ->
     part ∈ split (strip line) ->
     startswith part (lit "X") || startswith part (lit "Y")
     || startswith part (lit "E") = true ->
     is_Some (float_of_str (drop 1 part))) ->
  exists gcode_data, scan_lines float_of_str [] lines = Ok gcode_data.
Proof.
  intros Hok. generalize (@nil row) as acc.
  induction lines as [|line lines IH]; intros acc; [now exists acc|].
  cbn [scan_lines]. unfold scan_line.
  assert (Hrest : forall acc', exists out,
            scan_lines float_of_str acc' lines = Ok out).
  { apply IH. intros l part Hl. apply Hok. now right. }
  destruct (contains line G1) eqn:Ht; [|apply Hrest].
  destruct (scan_parts_succeeds (split (strip line)) (None, None, None))
    as [f Hf].
  { intros part Hin Hm. apply (Hok line part); auto. now left. }
  rewrite Hf. unfold bind at 2.
  destruct f as [[[x|] [y|]] [e|]]; unfold bind; apply Hrest.
Qed.

End Success.

Lemma extraction_succeeds_witness :
  exists gcode_data,
    scan_lines py_float [] [ln "; Xabc"; ln "G1 X1 Y2 E3"] = Ok gcode_data.
Proof.
  apply (extraction_succeeds py_float [ln "; Xabc"; ln "G1 X1 Y2 E3"]).
  intros line part Hline Ht Hpart Hm.
  apply list_elem_of_In in Hline. vm_compute in Hline.
  destruct Hline as [<-|[<-|[]]]; [discriminate Ht|].
  apply list_elem_of_In in Hpart. vm_compute in Hpart.
  destruct Hpart as [<-|[<-|[<-|[<-|[]]]]];
    try discriminate Hm; vm_compute; eauto.
Defined.

(** ** The rewriter on its own *)

Lemma written_lines_untagged rows m lines :
  Forall (fun line => tagged line = false) lines ->
  written_lines rows m lines = lines.
Proof.
  intros H. revert m. induction H as [|line lines Ht _ IH]; intros m;
    [reflexivity|].
  cbn [written_lines]. unfold written_line. rewrite Ht. now rewrite IH.
Qed.

Lemma E_seen_untagged lines :
  Forall (fun line => tagged line = false) lines -> E_seen lines = 0.
Proof.
  induction 1 as [|line lines Ht _ IH]; [reflexivity|].
  cbn [E_seen]. now rewrite Ht, IH.
Qed.

(** X16. A file in which no line that is read contains [G1] is copied
    with its line ends as they are read, CR LF and a CR alone as LF,
    whatever the array holds, and no record is used; a file without any CR
    is so copied byte for byte. *)
Theorem untagged_file_copied (fs : gmap string str) path a orig text :
  path <> orig ->
  fs !! orig = Some text ->
  (forall line, line ∈ readlines text -> contains line G1 = false) ->
  write_gcode fs path a orig = (<[path := universal_newlines text]> fs, Ok 0)
  /\ ((forall c, c ∈ text -> c <> CR) ->
      write_gcode fs path a orig = (<[path := text]> fs, Ok 0)).
Proof.
  intros Hne Horig Hun.
  assert (Hall : Forall (fun line => tagged line = false) (readlines text))
    by now apply Forall_forall.
  assert (Hrun : write_gcode fs path a orig
                 = (<[path := universal_newlines text]> fs, Ok 0)).
  { rewrite (write_gcode_spec _ _ _ _ _ Hne Horig).
    rewrite (written_lines_untagged _ _ _ Hall), (E_seen_untagged _ Hall).
    now rewrite concat_readlines. }
  split; [exact Hrun|].
  intros Hcr. rewrite Hrun, universal_newlines_id; [reflexivity|].
  now apply Forall_forall.
Qed.

Lemma untagged_file_copied_witness :
  write_gcode {[ input_file := lit "M104  S200" ++ [CR; LF] ++ lit "; end" ]}
    output_file (Rows [Row 0 0 1]) input_file
  = (<[output_file := ln "M104  S200" ++ lit "; end"]>
       {[ input_file := lit "M104  S200" ++ [CR; LF] ++ lit "; end" ]}, Ok 0).
Proof.
  apply (untagged_file_copied
           ({[ input_file := lit "M104  S200" ++ [CR; LF] ++ lit "; end" ]}
             : gmap string str) output_file (Rows [Row 0 0 1]) input_file
           (lit "M104  S200" ++ [CR; LF] ++ lit "; end")).
  - discriminate.
  - vm_compute; reflexivity.
  - intros line Hin. apply list_elem_of_In in Hin. vm_compute in Hin.
    destruct Hin as [<-|[<-|[]]]; vm_compute; reflexivity.
Defined.

(** ** The tag *)

Lemma startswith_prefix p : forall s,
  startswith s p = true <-> exists post, s = p ++ post.
Proof.
  induction p as [|a p IH]; intros s; cbn [startswith].
  - split; [intros _; now exists s | reflexivity].
  - destruct s as [|b s].
    + split; [discriminate | intros [post E]; discriminate E].
    + rewrite andb_true_iff, IH. split.
      * intros [E [post ->]]. apply ascii_eqb_true in E. subst.
        now exists post.
      * intros [post E]. injection E as -> ->.
        split; [apply Ascii.eqb_refl | now exists post].
Qed.

(** X17. The tag is looked for anywhere in the line, not as a token: a
    line is treated as a move exactly when the two characters [G1] occur
    in it one after the other, be it inside [G10], inside a longer word or
    inside a comment. *)
Theorem tagged_iff_substring line :
  contains line G1 = true <-> exists pre post, line = pre ++ lit "G1" ++ post.
Proof.
  induction line as [|c line IH]; cbn [contains].
  - split; [discriminate|].
    intros (pre & post & E). destruct pre as [|b pre]; discriminate E.
  - rewrite orb_true_iff, IH, startswith_prefix. split.
    + intros [[post E]|(pre & post & E)].
      * exists [], post. exact E.
      * exists (c :: pre), post. cbn. now rewrite E.
    + intros ([|b pre] & post & E).
      * left. now exists post.
      * right. injection E as -> E. now exists pre, post.
Qed.

(** ** The plotted sample *)

Lemma every_tenth_lookup rows : forall skip k,
  every_tenth skip rows !! k = rows !! (skip + 10 * k).
Proof.
  induction rows as [|r rows IH]; intros skip k; [reflexivity|].
  destruct skip as [|skip]; cbn [every_tenth].
  - destruct k as [|k]; [reflexivity|].
    cbn [lookup list_lookup]. rewrite IH.
    replace (0 + 10 * S k) with (S (9 + 10 * k)) by lia. reflexivity.
  - rewrite IH. reflexivity.
Qed.

Lemma every_tenth_length rows : forall skip,
  skip <= 9 -> length (every_tenth skip rows) = (length rows + 9 - skip) / 10.
Proof.
  induction rows as [|r rows IH]; intros skip Hskip.
  - cbn [every_tenth length]. symmetry. apply Nat.div_small. lia.
  - destruct skip as [|skip]; cbn [every_tenth length].
    + rewrite IH by lia.
      replace (S (length rows) + 9 - 0) with (length rows + 1 * 10) by lia.
      rewrite Nat.div_add by lia.
      replace (length rows + 9 - 9) with (length rows) by lia. lia.
    + rewrite IH by lia. reflexivity.
Qed.

Lemma lookup_map_column (j : row -> float) rows k :
  map j rows !! k = j <$> rows !! k.
Proof. apply lookup_map. Qed.

(** X18. What is plotted is every tenth record, from the first: on an
    array of [N] rows the three columns handed to the scatter plot have
    [ceil(N / 10)] entries each, and entry [k] is taken from record
    [10 * k]. *)
Theorem scatter_plots_every_tenth rows :
  exists xs ys cs,
    scatter_data (Rows rows) = Ok (xs, ys, cs)
    /\ length xs = (length rows + 9) / 10
    /\ length ys = length xs /\ length cs = length xs
    /\ forall k,
       xs !! k = col_x <$> rows !! (10 * k)
       /\ ys !! k = col_y <$> rows !! (10 * k)
       /\ cs !! k = col_e <$> rows !! (10 * k).
Proof.
  do 3 eexists. split; [reflexivity|].
  rewrite !length_map.
  split; [rewrite every_tenth_length by lia; f_equal; lia|].
  split; [reflexivity|]. split; [reflexivity|].
  intros k. rewrite !lookup_map_column, every_tenth_lookup.
  now repeat split.
Qed.
